(** * whois-mcp: the record normalizers, the single-item fetcher, the batch
    orchestrator and the CSV exporter of [whois_mcp_server/whois_server.py],
    together with the legacy parser of the top-level [whois_server.py]. *)

From stdpp Require Import gmap strings list fin_maps sorting pretty.
From Stdlib Require Import ZArith Lia Ascii.

Set Warnings "-register-all,-clear-no-such-hyp".

(** ** Python values held by the dictionaries of the program *)

(** A field of a whois record is [None], a [str], or a list of
    [Optional[str]] (the comprehensions [[e.text for e in ...]]). *)
Inductive value :=
  | VNone
  | VStr (s : string)
  | VList (l : list (option string)).

Global Instance value_eq_dec : EqDecision value.
Proof. solve_decision. Defined.

(** [Optional[str]] as a value. *)
Definition of_text (t : option string) : value :=
  match t with
  | Some s => VStr s
  | None => VNone
  end.

(** A whois record ([Dict[str, Any]] with keys chosen at run time). *)
Abbreviation record := (gmap string value).

(** ** xml.etree.ElementTree: elements and the path language used here *)

(** An element as the program reads it: [tag], [text] and the child
    elements in document order. *)
Inductive Element :=
  | Elem (tag : string) (text : option string) (children : list Element).

Definition tag (e : Element) : string :=
  match e with Elem t _ _ => t end.

Definition text (e : Element) : option string :=
  match e with Elem _ t _ => t end.

Definition children (e : Element) : list Element :=
  match e with Elem _ _ c => c end.

(** One step of an ElementPath expression: [.], [*] or a tag name. *)
Inductive step :=
  | Self
  | Star
  | Child (name : string).

(** Splitting a path at its [/] separators. *)
Fixpoint split_slash (cur : string) (s : string) : list string :=
  match s with
  | EmptyString => [String.rev cur]
  | String c rest =>
      if Ascii.eqb c "/"%char
      then String.rev cur :: split_slash EmptyString rest
      else split_slash (String c cur) rest
  end.

Definition step_of (tok : string) : step :=
  if String.eqb tok "." then Self
  else if String.eqb tok "*" then Star
  else Child tok.

Definition tokenize (path : string) : list step :=
  step_of <$> split_slash EmptyString path.

(** The selectors of ElementPath: each maps the current result sequence to
    the next one, in document order. *)
Definition select (s : step) (result : list Element) : list Element :=
  match s with
  | Self => result
  | Star => result ≫= children
  | Child name =>
      result ≫= (fun elem => filter (fun e => tag e = name) (children elem))
  end.

Definition iterfind_steps (steps : list step) (elem : Element) : list Element :=
  foldl (fun result s => select s result) [elem] steps.

Definition findall (elem : Element) (path : string) : list Element :=
  iterfind_steps (tokenize path) elem.

Definition find (elem : Element) (path : string) : option Element :=
  head (findall elem path).

(** [findtext] with its default [None]: an element found with no text
    gives the empty string. *)
Definition findtext (elem : Element) (path : string) : option string :=
  match find elem path with
  | Some e => Some (default "" (text e))
  | None => None
  end.

(** [ET.fromstring]: either the [ParseError] it raises, rendered by [str],
    or the root element. *)
Inductive fromstring_result :=
  | ParseError (msg : string)
  | Root (root : Element).

(** ** whois_mcp_server/whois_server.py: the two parsers *)

Definition get_xml_text (root : Element) (tag_name : string) : option string :=
  match find root tag_name with
  | Some element => text element
  | None => None
  end.

Definition texts (l : list Element) : value := VList (text <$> l).

Section Parsers.
Variable fromstring : string -> fromstring_result.

Definition parse_domain_whois_xml (xml_content query : string) : record :=
  match fromstring xml_content with
  | Root root =>
      match find root "./whois/krdomain" with
      | None =>
          <["query" := VStr query]>
            (<["error" := VStr "krdomain 태그를 찾을 수 없습니다."]> ∅)
      | Some krdomain =>
          <["ip1" := texts (findall krdomain "ip1")]>
          (<["ns1" := texts (findall krdomain "ns1")]>
          (<["dnssec" := of_text (get_xml_text krdomain "dnssec")]>
          (<["e_agency" := of_text (get_xml_text krdomain "e_agency")]>
          (<["e_adminName" := of_text (get_xml_text krdomain "e_adminName")]>
          (<["e_addr" := of_text (get_xml_text krdomain "e_addr")]>
          (<["e_regName" := of_text (get_xml_text krdomain "e_regName")]>
          (<["agency_url" := of_text (get_xml_text krdomain "agency_url")]>
          (<["agency" := of_text (get_xml_text krdomain "agency")]>
          (<["domainStatus" := texts (findall krdomain "domainStatus")]>
          (<["infoYN" := of_text (get_xml_text krdomain "infoYN")]>
          (<["endDate" := of_text (get_xml_text krdomain "endDate")]>
          (<["regDate" := of_text (get_xml_text krdomain "regDate")]>
          (<["lastUpdatedDate" := of_text (get_xml_text krdomain "lastUpdatedDate")]>
          (<["adminPhone" := of_text (get_xml_text krdomain "adminPhone")]>
          (<["adminEmail" := of_text (get_xml_text krdomain "adminEmail")]>
          (<["adminName" := of_text (get_xml_text krdomain "adminName")]>
          (<["post" := of_text (get_xml_text krdomain "post")]>
          (<["addr" := of_text (get_xml_text krdomain "addr")]>
          (<["regName" := of_text (get_xml_text krdomain "regName")]>
          (<["name" := of_text (get_xml_text krdomain "name")]>
          (<["query" := VStr query]> ∅)))))))))))))))))))))
      end
  | ParseError e =>
      <["query" := VStr query]>
        (<["error" := VStr ("XML 파싱 오류: " +:+ e)]> ∅)
  end.

(** [for child in whois_elem.findall(path): result[prefix + child.tag] =
    child.text], a later child overwriting an earlier one of the same
    tag. *)
Definition flatten (prefix : string) (elems : list Element) (result : record)
  : record :=
  foldl (fun result child => <[prefix +:+ tag child := of_text (text child)]> result)
        result elems.

Definition parse_ip_whois_xml (xml_content query : string) : record :=
  match fromstring xml_content with
  | Root root =>
      match find root "./whois" with
      | None =>
          <["query" := VStr query]>
            (<["error" := VStr "whois 태그를 찾을 수 없습니다."]> ∅)
      | Some whois_elem =>
          let result : record :=
            <["countryCode" := of_text (findtext whois_elem "countryCode")]>
            (<["registry" := of_text (findtext whois_elem "registry")]>
            (<["queryType" := of_text (findtext whois_elem "queryType")]>
            (<["query" := of_text (findtext whois_elem "query")]> ∅))) in
          let result :=
            flatten "korean_ISP_" (findall whois_elem "./korean/ISP/netInfo/*") result in
          let result :=
            flatten "korean_ISP_contact_" (findall whois_elem "./korean/ISP/techContact/*") result in
          let result :=
            flatten "korean_user_" (findall whois_elem "./korean/user/netInfo/*") result in
          let result :=
            flatten "korean_user_contact_" (findall whois_elem "./korean/user/techContact/*") result in
          let result :=
            flatten "english_ISP_" (findall whois_elem "./english/ISP/netInfo/*") result in
          let result :=
            flatten "english_ISP_contact_" (findall whois_elem "./english/ISP/techContact/*") result in
          let result :=
            flatten "english_user_" (findall whois_elem "./english/user/netInfo/*") result in
          let result :=
            flatten "english_user_contact_" (findall whois_elem "./english/user/techContact/*") result in
          result
      end
  | ParseError e =>
      <["query" := VStr query]>
        (<["error" := VStr ("XML 파싱 오류: " +:+ e)]> ∅)
  end.
End Parsers.

(** ** whois_server.py (the legacy variant): its parser *)

Module Legacy.
Definition get_xml_text (root : Element) (tag_name : string) : option string :=
  match find root tag_name with
  | Some element => text element
  | None => None
  end.

Definition parse_whois_xml (fromstring : string -> fromstring_result)
    (xml_content query : string) : record :=
  match fromstring xml_content with
  | Root root =>
      match find root "./whois/krdomain" with
      | None =>
          <["query" := VStr query]>
            (<["error" := VStr "krdomain 태그를 찾을 수 없습니다."]> ∅)
      | Some krdomain =>
          <["ip1" := texts (findall krdomain "ip1")]>
          (<["ns1" := texts (findall krdomain "ns1")]>
          (<["dnssec" := of_text (get_xml_text krdomain "dnssec")]>
          (<["e_agency" := of_text (get_xml_text krdomain "e_agency")]>
          (<["e_adminName" := of_text (get_xml_text krdomain "e_adminName")]>
          (<["e_addr" := of_text (get_xml_text krdomain "e_addr")]>
          (<["e_regName" := of_text (get_xml_text krdomain "e_regName")]>
          (<["agency_url" := of_text (get_xml_text krdomain "agency_url")]>
          (<["agency" := of_text (get_xml_text krdomain "agency")]>
          (<["domainStatus" := texts (findall krdomain "domainStatus")]>
          (<["infoYN" := of_text (get_xml_text krdomain "infoYN")]>
          (<["endDate" := of_text (get_xml_text krdomain "endDate")]>
          (<["regDate" := of_text (get_xml_text krdomain "regDate")]>
          (<["lastUpdatedDate" := of_text (get_xml_text krdomain "lastUpdatedDate")]>
          (<["adminPhone" := of_text (get_xml_text krdomain "adminPhone")]>
          (<["adminEmail" := of_text (get_xml_text krdomain "adminEmail")]>
          (<["adminName" := of_text (get_xml_text krdomain "adminName")]>
          (<["post" := of_text (get_xml_text krdomain "post")]>
          (<["addr" := of_text (get_xml_text krdomain "addr")]>
          (<["regName" := of_text (get_xml_text krdomain "regName")]>
          (<["name" := of_text (get_xml_text krdomain "name")]>
          (<["query" := VStr query]> ∅)))))))))))))))))))))
      end
  | ParseError e =>
      <["query" := VStr query]>
        (<["error" := VStr ("XML 파싱 오류: " +:+ e)]> ∅)
  end.
End Legacy.

(** ** The world outside the program *)

(** A raised [Exception]: [type(e).__name__], [str(e)] and the text that
    [traceback.format_exc()] gives while it is being handled. *)
Record exn := Exn {
  exn_type : string;
  exn_str : string;
  exn_traceback : string
}.

(** One GET of [client.get(url, params=params)]. *)
Record request := Request {
  req_url : string;
  req_serviceKey : string;
  req_query : string;
  req_answer : string
}.

(** The part of an [httpx.Response] that the program reads. *)
Record response := Response {
  status_code : Z;
  response_text : string
}.

(** A written CSV file: its rows, each row the list of its cells. *)
Abbreviation rows := (list (list value)).

(** The [delay] argument. Its annotation asks for a [float] and nothing
    checks it: a finite number, as [mantissa * 2 ^ exponent], an infinity,
    not-a-number, or a value that is not a number, given with the exception
    that [asyncio.sleep] raises on it (for a string the [TypeError] of its
    first comparison, [delay <= 0]). *)
Inductive delay_value :=
  | Finite (mantissa exponent : Z)
  | Infinity (negative : bool)
  | NaN
  | NotANumber (e : exn).

(** How an awaited [asyncio.sleep] ends: it wakes, it raises, or it never
    wakes. *)
Inductive wake :=
  | Wakes
  | WakeRaises (e : exn)
  | NeverWakes.

(** Everything the program asks of its environment. The GET gives back a
    response or raises a transport exception, and may depend on all the
    requests sent before. Opening a file for writing may raise; so may, on a
    file that is open, a write (given the rows written so far and the cells
    to write) and the closing of the file (given the rows written); so may a
    [print] (given the lines printed so far and the line to print).
    [asyncio.sleep] on not-a-number depends on the version of Python. *)
Record World := {
  WHOIS_SERVICE_KEY : option string;
  fromstring : string -> fromstring_result;
  ip_address : string -> bool;
  upstream : list request -> request -> exn + response;
  isoformat_now : nat -> string;
  open_w : string -> option exn;
  write_error : string -> rows -> list value -> option exn;
  close_error : string -> rows -> option exn;
  print_error : list (Z * Z) -> Z * Z -> option exn;
  sleep_nan : wake
}.

(** The effects of a run: requests sent (latest first), clock reads, sleeps
    between batches that came to their end, progress lines printed as
    [(processed, total_items)], the rows handed to each file by writes that
    did not raise, and the batches that [process_batch] was called with, in
    the order of the calls. *)
Record state := State {
  sent : list request;
  clock_reads : nat;
  sleeps : nat;
  printed : list (Z * Z);
  files : gmap string rows;
  dispatched : list (list string)
}.

Definition initial : state := State [] 0 0 [] ∅ [].

(** ** State and exceptions *)

Definition M (A : Type) : Type := state -> (exn + A) * state.

Definition ret {A} (a : A) : M A := fun s => (inr a, s).

Definition raise {A} (e : exn) : M A := fun s => (inl e, s).

Definition bind {A B} (m : M A) (k : A -> M B) : M B :=
  fun s =>
    match m s with
    | (inr a, s') => k a s'
    | (inl e, s') => (inl e, s')
    end.

(** [try: m except Exception as e: h e]. *)
Definition try_except {A} (m : M A) (h : exn -> M A) : M A :=
  fun s =>
    match m s with
    | (inr a, s') => (inr a, s')
    | (inl e, s') => h e s'
    end.

Notation "x <- m ;; k" := (bind m (fun x => k))
  (at level 100, m at next level, right associativity).
Notation "m ;;; k" := (bind m (fun _ => k))
  (at level 100, right associativity).

Fixpoint mapM {A B} (f : A -> M B) (l : list A) : M (list B) :=
  match l with
  | [] => ret []
  | x :: l' => y <- f x ;; ys <- mapM f l' ;; ret (y :: ys)
  end.

Fixpoint foldM {A B} (f : A -> B -> M A) (a : A) (l : list B) : M A :=
  match l with
  | [] => ret a
  | x :: l' => a' <- f a x ;; foldM f a' l'
  end.

Definition client_get (W : World) (r : request) : M response :=
  fun s =>
    (upstream W (sent s) r,
     State (r :: sent s) (clock_reads s) (sleeps s) (printed s) (files s)
           (dispatched s)).

Definition now_isoformat (W : World) : M string :=
  fun s =>
    (inr (isoformat_now W (clock_reads s)),
     State (sent s) (S (clock_reads s)) (sleeps s) (printed s) (files s)
           (dispatched s)).

(** [print(...)] of a progress line: it raises, printing nothing, or the
    line is printed. *)
Definition print_progress (W : World) (processed total_items : Z) : M unit :=
  fun s =>
    match print_error W (printed s) (processed, total_items) with
    | Some e => (inl e, s)
    | None =>
        (inr tt,
         State (sent s) (clock_reads s) (sleeps s)
               (printed s ++ [(processed, total_items)]) (files s) (dispatched s))
    end.

(** ** Awaited calls that may never come back *)

(** What running an awaited call gives: a value or an exception, or nothing
    because the call is still pending. *)
Inductive ending (A : Type) : Type :=
  | Returned (r : exn + A)
  | Pending.
Arguments Returned {A} r.
Arguments Pending {A}.

Definition T (A : Type) : Type := state -> ending A * state.

Definition lift {A} (m : M A) : T A :=
  fun s => (Returned (fst (m s)), snd (m s)).

Definition bindT {A B} (m : T A) (k : A -> T B) : T B :=
  fun s =>
    match m s with
    | (Returned (inr a), s') => k a s'
    | (Returned (inl e), s') => (Returned (inl e), s')
    | (Pending, s') => (Pending, s')
    end.

Definition try_exceptT {A} (m : T A) (h : exn -> T A) : T A :=
  fun s =>
    match m s with
    | (Returned (inl e), s') => h e s'
    | other => other
    end.

Fixpoint foldT {A B} (f : A -> B -> T A) (a : A) (l : list B) : T A :=
  match l with
  | [] => lift (ret a)
  | x :: l' => bindT (f a x) (fun a' => foldT f a' l')
  end.

(** [asyncio.sleep(delay)]: a delay that is not above 0 yields once and
    comes back, a finite delay comes back when it is over, the timer of an
    infinite delay never fires, and a value that is not a number raises. *)
Definition sleep_ends (W : World) (delay : delay_value) : wake :=
  match delay with
  | Finite _ _ => Wakes
  | Infinity true => Wakes
  | Infinity false => NeverWakes
  | NaN => sleep_nan W
  | NotANumber e => WakeRaises e
  end.

Definition asyncio_sleep (W : World) (delay : delay_value) : T unit :=
  fun s =>
    match sleep_ends W delay with
    | Wakes =>
        (Returned (inr tt),
         State (sent s) (clock_reads s) (S (sleeps s)) (printed s) (files s)
               (dispatched s))
    | WakeRaises e => (Returned (inl e), s)
    | NeverWakes => (Pending, s)
    end.

(** ** whois_mcp_server/whois_server.py: the single-item fetcher *)

(** The dictionaries that [lookup_whois] returns and the exporters read:
    each field is [None] when the key is absent. *)
Record outcome := Outcome {
  o_query : option value;
  o_status : option value;
  o_data : option record;
  o_error : option value;
  o_query_time : option value
}.

Definition nl : string := String "010"%char EmptyString.

Definition SERVICE_KEY (W : World) : string :=
  default "your_service_key_here" (WHOIS_SERVICE_KEY W).

Definition is_ip_address (W : World) (v : string) : bool := ip_address W v.

(** [service_key or SERVICE_KEY]. *)
Definition or_key (service_key : option string) (fallback : string) : string :=
  match service_key with
  | Some k => if String.eqb k "" then fallback else k
  | None => fallback
  end.

Definition query_whois_api (W : World) (query service_key : string) (is_ip : bool)
  : M record :=
  try_except
    (let url :=
       if is_ip then "http://apis.data.go.kr/B551505/whois/ip_address"
       else "http://apis.data.go.kr/B551505/whois/domain_name" in
     response <- client_get W (Request url service_key query "xml") ;;
     if (status_code response =? 200)%Z then
       if is_ip then ret (parse_ip_whois_xml (fromstring W) (response_text response) query)
       else ret (parse_domain_whois_xml (fromstring W) (response_text response) query)
     else
       ret (<["query" := VStr query]>
            (<["error" := VStr ("API 호출 실패: HTTP "
                                +:+ pretty (status_code response))]> ∅)))
    (fun e =>
       ret (<["query" := VStr query]>
            (<["error" := VStr ("API 호출 중 오류: " +:+ exn_type e +:+ ": "
                                +:+ exn_str e +:+ nl +:+ exn_traceback e)]> ∅))).

Definition lookup_whois (W : World) (query : string) (service_key : option string)
  : M outcome :=
  try_except
    (let api_key := or_key service_key (SERVICE_KEY W) in
     if String.eqb api_key "" || String.eqb api_key "your_service_key_here" then
       ret (Outcome (Some (VStr query)) (Some (VStr "error")) None
                    (Some (VStr "API 서비스 키가 필요합니다.")) None)
     else
       let is_ip := is_ip_address W query in
       whois_data <- query_whois_api W query api_key is_ip ;;
       t <- now_isoformat W ;;
       ret (Outcome (Some (VStr query))
                    (Some (VStr (if bool_decide (whois_data !! "error" = None)
                                 then "success" else "error")))
                    (Some whois_data) None (Some (VStr t))))
    (fun e =>
       t <- now_isoformat W ;;
       ret (Outcome (Some (VStr query)) (Some (VStr "error")) None
                    (Some (VStr ("API 호출 중 오류: " +:+ exn_type e +:+ ": "
                                 +:+ exn_str e +:+ nl +:+ exn_traceback e)))
                    (Some (VStr t)))).

(** ** Python sequences: [range] and slices *)

(** The number of elements of [range(start, stop, step)] for a non-zero
    step, as CPython computes it. *)
Definition range_length (start stop step : Z) : Z :=
  if (0 <? step)%Z then
    if (start <? stop)%Z then ((stop - start - 1) / step + 1)%Z else 0%Z
  else
    if (stop <? start)%Z then ((start - stop - 1) / (- step) + 1)%Z else 0%Z.

(** [range(start, stop, step)]; a zero step raises [ValueError]. *)
Definition range (start stop step : Z) : exn + list Z :=
  if (step =? 0)%Z then
    inl (Exn "ValueError" "range() arg 3 must not be zero" "")
  else
    inr ((fun k : nat => (start + Z.of_nat k * step)%Z)
           <$> seq 0 (Z.to_nat (range_length start stop step))).

(** A slice bound brought into [0 .. len]. *)
Definition clamp (len i : Z) : Z :=
  if (i <? 0)%Z then Z.max 0 (i + len) else Z.min i len.

(** [l[i:j]]. *)
Definition slice {A} (l : list A) (i j : Z) : list A :=
  let len := Z.of_nat (length l) in
  let lo := clamp len i in
  let hi := clamp len j in
  take (Z.to_nat (hi - lo)) (drop (Z.to_nat lo) l).

(** ** whois_mcp_server/whois_server.py: the batch orchestrator *)

(** [asyncio.gather(..., return_exceptions=True)] hands back an exception as
    a value. The tasks of one batch are run here in item order, one of the
    interleavings the event loop allows. *)
Definition as_value {A} (m : M A) : M (exn + A) :=
  fun s =>
    match m s with
    | (inr a, s') => (inr (inr a), s')
    | (inl e, s') => (inr (inl e), s')
    end.

(** The call of [process_batch] with [batch] is put on record. *)
Definition called_with (batch : list string) : M unit :=
  fun s =>
    (inr tt,
     State (sent s) (clock_reads s) (sleeps s) (printed s) (files s)
           (dispatched s ++ [batch])).

Definition process_batch (W : World) (batch : list string) : M (list (exn + outcome)) :=
  called_with batch ;;;
  mapM (fun item => as_value (lookup_whois W item None)) batch.

(** The two lists that the loop of [bulk_whois_lookup] appends to, and its
    counter. *)
Record tally := Tally {
  results : list outcome;
  errors : list value;
  processed : Z
}.

(** The inner loop over one batch's results. *)
Definition classify (t : tally) (result : exn + outcome) : tally :=
  match result with
  | inl e => Tally (results t) (errors t ++ [VStr (exn_str e)]) (processed t)
  | inr r =>
      if bool_decide (default VNone (o_status r) = VStr "success")
      then Tally (results t ++ [r]) (errors t) (processed t)
      else Tally (results t) (errors t ++ [default (VStr "unknown") (o_query r)])
                 (processed t)
  end.

(** What [bulk_whois_lookup] returns; [success_rate], a float, is left
    out. *)
Inductive bulk_result :=
  | Completed (total_items successful failed : nat) (found : list outcome)
  | BulkError (error : string).

(** The body of the loop up to the progress line. *)
Definition do_batch (W : World) (items : list string) (batch_size total_items : Z)
    (t : tally) (i : Z) : M tally :=
  let batch := slice items i (i + batch_size) in
  batch_results <- process_batch W batch ;;
  let t := foldl classify t batch_results in
  let t := Tally (results t) (errors t) (processed t + Z.of_nat (length batch)) in
  (if (processed t mod (batch_size * 10) =? 0)%Z
   then print_progress W (processed t) total_items
   else ret tt) ;;;
  ret t.

(** The body of the loop: a batch, then the sleep. *)
Definition batch_then_sleep (W : World) (items : list string)
    (batch_size total_items : Z) (delay : delay_value) (t : tally) (i : Z) : T tally :=
  bindT (lift (do_batch W items batch_size total_items t i)) (fun t' =>
  bindT (asyncio_sleep W delay) (fun _ =>
  lift (ret t'))).

Definition bulk_whois_lookup (W : World) (items : list string) (batch_size : Z)
    (delay : delay_value) : T bulk_result :=
  try_exceptT
    (let total_items := length items in
     match range 0 (Z.of_nat total_items) batch_size with
     | inl e => lift (raise e)
     | inr starts =>
         bindT (foldT (batch_then_sleep W items batch_size (Z.of_nat total_items) delay)
                      (Tally [] [] 0) starts) (fun t =>
         lift (ret (Completed total_items (length (results t)) (length (errors t))
                              (results t))))
     end)
    (fun e => lift (ret (BulkError ("대량 분석 중 오류: " +:+ exn_str e)))).

(** ** whois_mcp_server/whois_server.py: the CSV exporter *)

(** [repr] of a key, for keys without quotes, backslashes or control
    characters. *)
Definition repr (s : string) : string := "'" +:+ s +:+ "'".

Fixpoint join (sep : string) (l : list string) : string :=
  match l with
  | [] => ""
  | [x] => x
  | x :: l' => x +:+ sep +:+ join sep l'
  end.

(** [csv.DictWriter] with [restval=''] and [extrasaction='raise']: the cells
    of one row, or the [ValueError] for keys outside [fieldnames]. The order
    in which several such keys are listed is that of a Python set; here it is
    that of [elements]. *)
Definition dict_to_list (fieldnames : list string) (rowdict : record)
  : exn + list value :=
  let wrong_fields : gset string := dom rowdict ∖ list_to_set fieldnames in
  if bool_decide (wrong_fields = ∅) then
    inr ((fun key => default (VStr "") (rowdict !! key)) <$> fieldnames)
  else
    inl (Exn "ValueError"
             ("dict contains fields not in fieldnames: "
              +:+ join ", " (repr <$> elements wrong_fields)) "").

(** [open(output_file, 'w')]: truncates the file, unless it raises. *)
Definition open_write (W : World) (path : string) : M unit :=
  fun s =>
    match open_w W path with
    | Some e => (inl e, s)
    | None =>
        (inr tt, State (sent s) (clock_reads s) (sleeps s) (printed s)
                       (<[path := []]> (files s)) (dispatched s))
    end.

(** A write to the open file: it raises, or the row is added. *)
Definition append_row (W : World) (path : string) (cells : list value) : M unit :=
  fun s =>
    let content := default [] (files s !! path) in
    match write_error W path content cells with
    | Some e => (inl e, s)
    | None =>
        (inr tt, State (sent s) (clock_reads s) (sleeps s) (printed s)
                       (<[path := content ++ [cells]]> (files s)) (dispatched s))
    end.

(** The end of a [with open(...)] block: the file is closed whether the
    body raised or not, and an exception of the closing is the one that
    leaves the block. *)
Definition close (W : World) (path : string) {A} (r : exn + A) : M A :=
  fun s =>
    match close_error W path (default [] (files s !! path)) with
    | Some e => (inl e, s)
    | None => (r, s)
    end.

(** [with open(path, 'w') as f: body]. *)
Definition with_open (W : World) (path : string) {A} (body : M A) : M A :=
  open_write W path ;;;
  fun s => close W path (fst (body s)) (snd (body s)).

Definition writerow (W : World) (path : string) (fieldnames : list string)
    (rowdict : record) : M unit :=
  match dict_to_list fieldnames rowdict with
  | inr cells => append_row W path cells
  | inl e => raise e
  end.

Definition writeheader (W : World) (path : string) (fieldnames : list string)
  : M unit :=
  writerow W path fieldnames (list_to_map ((fun f => (f, VStr f)) <$> fieldnames)).

Definition is_success (result : outcome) : bool :=
  bool_decide (default VNone (o_status result) = VStr "success")
  && bool_decide (is_Some (o_data result)).

(** The first loop: the union of the keys of the success records. *)
Definition collect_headers (res : list outcome) : gset string :=
  foldl (fun headers result =>
           if is_success result
           then headers ∪ dom (default (∅ : record) (o_data result))
           else headers)
        ∅ res.

Definition sorted (l : list string) : list string := merge_sort String.le l.

Definition csv_headers (res : list outcome) : list string :=
  ["query"; "status"; "query_time"] ++ sorted (elements (collect_headers res)).

(** The dictionary built for one result in the second loop. *)
Definition make_row (result : outcome) : record :=
  let row : record :=
    <["query_time" := default VNone (o_query_time result)]>
    (<["status" := default VNone (o_status result)]>
    (<["query" := default VNone (o_query result)]> ∅)) in
  if is_success result then
    default (∅ : record) (o_data result) ∪ row
  else if bool_decide (default VNone (o_status result) = VStr "error") then
    <["error" := default VNone (o_error result)]> row
  else row.

Inductive save_result :=
  | Saved (file_path : string) (records_saved : nat) (message : string)
  | SaveError (error : string).

Definition save_results_to_csv (W : World) (res : list outcome) (output_file : string)
  : M save_result :=
  try_except
    (match res with
     | [] => ret (SaveError "저장할 데이터가 없습니다.")
     | _ =>
         let headers := csv_headers res in
         with_open W output_file
           (writeheader W output_file headers ;;;
            foldM (fun _ result => writerow W output_file headers (make_row result))
                  tt res) ;;;
         ret (Saved output_file (length res)
                    (pretty (length res) +:+ "개 결과를 " +:+ output_file
                     +:+ "에 저장했습니다."))
     end)
    (fun e => ret (SaveError ("CSV 저장 중 오류: " +:+ exn_str e))).

(** ** whois_server.py (the legacy variant): its fetcher *)

Module LegacyFetcher.
Definition query_whois_api (W : World) (query service_key : string) : M record :=
  try_except
    (response <- client_get W (Request "http://apis.data.go.kr/B551505/whois/domain_name"
                                       service_key query "xml") ;;
     if (status_code response =? 200)%Z then
       ret (Legacy.parse_whois_xml (fromstring W) (response_text response) query)
     else
       ret (<["query" := VStr query]>
            (<["error" := VStr ("API 호출 실패: HTTP "
                                +:+ pretty (status_code response))]> ∅)))
    (fun e =>
       ret (<["query" := VStr query]>
            (<["error" := VStr ("API 호출 중 오류: " +:+ exn_type e +:+ ": "
                                +:+ exn_str e +:+ nl +:+ exn_traceback e)]> ∅))).

Definition lookup_whois (W : World) (query : string) (service_key : option string)
  : M outcome :=
  try_except
    (let api_key := or_key service_key (SERVICE_KEY W) in
     if String.eqb api_key "" || String.eqb api_key "your_service_key_here" then
       ret (Outcome (Some (VStr query)) (Some (VStr "error")) None
                    (Some (VStr "API 서비스 키가 필요합니다.")) None)
     else
       whois_data <- query_whois_api W query api_key ;;
       t <- now_isoformat W ;;
       ret (Outcome (Some (VStr query))
                    (Some (VStr (if bool_decide (whois_data !! "error" = None)
                                 then "success" else "error")))
                    (Some whois_data) None (Some (VStr t))))
    (fun e =>
       t <- now_isoformat W ;;
       ret (Outcome (Some (VStr query)) (Some (VStr "error")) None
                    (Some (VStr ("API 호출 중 오류: " +:+ exn_type e +:+ ": "
                                 +:+ exn_str e +:+ nl +:+ exn_traceback e)))
                    (Some (VStr t)))).
End LegacyFetcher.

(** ** whois_mcp_server/whois_server.py: loading the item list *)

(** What [load_list_from_file] asks of its environment: whether a path
    exists, the lines of a file opened for reading (or the exception that
    opening or decoding it raises), and [str.strip]. *)
Record Disk := {
  path_exists : string -> bool;
  read_lines : string -> exn + list string;
  strip : string -> string
}.

(** [item and not item.startswith('#')]. *)
Definition keeps (item : string) : bool :=
  negb (String.eqb item "") && negb (String.prefix "#" item).

(** The loop over [enumerate(f)], from index [i] on. *)
Fixpoint load_loop (D : Disk) (max_items : Z) (i : Z) (lines : list string)
    (items : list string) : list string :=
  match lines with
  | [] => items
  | line :: rest =>
      if (max_items <=? i)%Z then items
      else
        let item := strip D line in
        load_loop D max_items (i + 1) rest
                  (if keeps item then items ++ [item] else items)
  end.

Inductive load_result :=
  | Loaded (loaded_count : nat) (file_path : string) (preview : list string)
           (message : string)
  | LoadError (error : string).

Definition load_list_from_file (D : Disk) (file_path : string) (max_items : Z)
  : load_result :=
  if negb (path_exists D file_path) then
    LoadError ("파일을 찾을 수 없습니다: " +:+ file_path)
  else
    match read_lines D file_path with
    | inl e => LoadError ("파일 로드 중 오류: " +:+ exn_str e)
    | inr lines =>
        let items := load_loop D max_items 0 lines [] in
        Loaded (length items) file_path (slice items 0 10)
               (pretty (length items) +:+ "개 항목 로드 완료")
    end.

(** ** whois_mcp_server/whois_server.py: the text exporter *)

(** A result as the text exporter reads it. The exporter walks
    [data.items()] in insertion order, so [data] is kept here as the list of
    its items in that order. *)
Record listed_outcome := ListedOutcome {
  l_query : option value;
  l_status : option value;
  l_data : option (list (string * value));
  l_error : option value
}.

(** Truth value of a field: [None], the empty string and the empty list
    are false. *)
Definition truthy (v : value) : bool :=
  match v with
  | VNone => false
  | VStr s => negb (String.eqb s "")
  | VList l => match l with [] => false | _ => true end
  end.

(** [str] of a field, given [str] of a list. *)
Definition str (str_list : list (option string) -> string) (v : value) : string :=
  match v with
  | VNone => "None"
  | VStr s => s
  | VList l => str_list l
  end.

Definition tab : string := String "009"%char EmptyString.

(** [f.write(text)]. A text file is kept in the same store as a CSV file,
    one single-cell row per [write]. *)
Definition write (W : World) (path text : string) : M unit :=
  append_row W path [VStr text].

(** The body of the loop over the results. *)
Definition write_result (W : World) (str_list : list (option string) -> string)
    (path format_type : string) (result : listed_outcome) : M unit :=
  let query := default VNone (l_query result) in
  let status := default VNone (l_status result) in
  if String.eqb format_type "simple" then
    write W path (str str_list query +:+ tab +:+ str str_list status +:+ nl)
  else
    write W path ("=== " +:+ str str_list query +:+ " ===" +:+ nl) ;;;
    write W path ("상태: " +:+ str str_list status +:+ nl) ;;;
    (if bool_decide (status = VStr "success") && bool_decide (is_Some (l_data result))
     then
       foldM (fun _ kv =>
                if truthy (snd kv)
                then write W path (fst kv +:+ ": " +:+ str str_list (snd kv) +:+ nl)
                else ret tt)
             tt (default [] (l_data result))
     else if bool_decide (status = VStr "error")
          then write W path ("오류: " +:+ str str_list (default VNone (l_error result))
                           +:+ nl)
          else ret tt) ;;;
    write W path nl.

Inductive txt_result :=
  | TxtSaved (file_path : string) (records_saved : nat) (format : string)
             (message : string)
  | TxtError (error : string).

Definition save_results_to_txt (W : World) (str_list : list (option string) -> string)
    (res : list listed_outcome) (output_file format_type : string) : M txt_result :=
  try_except
    (match res with
     | [] => ret (TxtError "저장할 데이터가 없습니다.")
     | _ =>
         with_open W output_file
           (write W output_file ("# Whois 분석 결과" +:+ nl) ;;;
            t <- now_isoformat W ;;
            write W output_file ("# 생성일시: " +:+ t +:+ nl) ;;;
            write W output_file
                  ("# 총 " +:+ pretty (length res) +:+ "개 결과" +:+ nl +:+ nl) ;;;
            foldM (fun _ result =>
                     write_result W str_list output_file format_type result)
                  tt res) ;;;
         ret (TxtSaved output_file (length res) format_type
                       (pretty (length res) +:+ "개 결과를 " +:+ output_file
                        +:+ "에 저장했습니다."))
     end)
    (fun e => ret (TxtError ("TXT 저장 중 오류: " +:+ exn_str e))).

(** ** Vocabulary of the statements *)

(** The scalar fields of a domain record, in the order of the source. *)
Definition scalar_fields : list string :=
  ["name"; "regName"; "addr"; "post"; "adminName"; "adminEmail"; "adminPhone";
   "lastUpdatedDate"; "regDate"; "endDate"; "infoYN"; "agency"; "agency_url";
   "e_regName"; "e_addr"; "e_adminName"; "e_agency"; "dnssec"].

(** The repeating fields of a domain record. *)
Definition list_fields : list string := ["domainStatus"; "ns1"; "ip1"].

(** The test of [lookup_whois] on a parser's answer: ["error" in whois_data]. *)
Definition is_error (r : record) : Prop := is_Some (r !! "error").

(** The two failure kinds of the parsers, told apart by their message. *)
Definition schema_mismatch (what query : string) : record :=
  <["query" := VStr query]>
    (<["error" := VStr (what +:+ " 태그를 찾을 수 없습니다.")]> ∅).

Definition malformed (e query : string) : record :=
  <["query" := VStr query]> (<["error" := VStr ("XML 파싱 오류: " +:+ e)]> ∅).

(** The keys of the top-level scalars of an IP record. *)
Definition ip_base_keys : gset string :=
  {["query"; "queryType"; "registry"; "countryCode"]}.

(** The compound keys that one flattening loop adds. *)
Definition compound_keys (prefix : string) (elems : list Element) : gset string :=
  list_to_set ((fun child => prefix +:+ tag child) <$> elems).

(** The key that [lookup_whois] refuses: empty, or the placeholder. *)
Definition unusable (api_key : string) : bool :=
  String.eqb api_key "" || String.eqb api_key "your_service_key_here".

(** The request that [query_whois_api] sends. *)
Definition request_for (query api_key : string) (is_ip : bool) : request :=
  Request (if is_ip then "http://apis.data.go.kr/B551505/whois/ip_address"
           else "http://apis.data.go.kr/B551505/whois/domain_name")
          api_key query "xml".

(** The answer of [query_whois_api] to a status other than 200. *)
Definition http_failure (code : Z) (query : string) : record :=
  <["query" := VStr query]>
    (<["error" := VStr ("API 호출 실패: HTTP " +:+ pretty code)]> ∅).

(** The parser that [query_whois_api] picks. *)
Definition parse_for (W : World) (is_ip : bool) (body query : string) : record :=
  if is_ip then parse_ip_whois_xml (fromstring W) body query
  else parse_domain_whois_xml (fromstring W) body query.

(** The state after one request and one reading of the clock. *)
Definition after_lookup (r : request) (s : state) : state :=
  State (r :: sent s) (S (clock_reads s)) (sleeps s) (printed s) (files s)
        (dispatched s).

(** The number of batches that the loop of [bulk_whois_lookup] takes. *)
Definition batch_count (total_items : nat) (batch_size : Z) : nat :=
  Z.to_nat (range_length 0 (Z.of_nat total_items) batch_size).

(** The outcomes a tally has counted so far. *)
Definition counted (t : tally) : nat := length (results t) + length (errors t).

(** The cells that [DictWriter] writes for a row dictionary: the value of
    each column, and the empty string where the row has none. *)
Definition cells (fieldnames : list string) (rowdict : record) : list value :=
  (fun key => default (VStr "") (rowdict !! key)) <$> fieldnames.

(** The exception of [DictWriter] for a row with an [error] key when no
    column has that name. *)
Definition error_not_a_column : exn :=
  Exn "ValueError" "dict contains fields not in fieldnames: 'error'" "".

(** An outcome with status [error]. *)
Definition failed_outcome (result : outcome) : Prop :=
  default VNone (o_status result) = VStr "error".

(** The state after [path] was written with [content]. *)
Definition written (path : string) (content : rows) (s : state) : state :=
  State (sent s) (clock_reads s) (sleeps s) (printed s)
        (<[path := content]> (files s)) (dispatched s).

(** The strings that the text exporter writes for one result, in order. *)
Definition result_text (str_list : list (option string) -> string)
    (format_type : string) (result : listed_outcome) : list string :=
  let query := default VNone (l_query result) in
  let status := default VNone (l_status result) in
  if String.eqb format_type "simple" then
    [str str_list query +:+ tab +:+ str str_list status +:+ nl]
  else
    ["=== " +:+ str str_list query +:+ " ===" +:+ nl;
     "상태: " +:+ str str_list status +:+ nl]
    ++ (if bool_decide (status = VStr "success") && bool_decide (is_Some (l_data result))
        then (fun kv => fst kv +:+ ": " +:+ str str_list (snd kv) +:+ nl)
               <$> filter (fun kv => truthy (snd kv) = true)
                          (default [] (l_data result))
        else if bool_decide (status = VStr "error")
             then ["오류: " +:+ str str_list (default VNone (l_error result)) +:+ nl]
             else [])
    ++ [nl].

(** The three strings written before the results. *)
Definition txt_heading (now : string) (n : nat) : list string :=
  ["# Whois 분석 결과" +:+ nl;
   "# 생성일시: " +:+ now +:+ nl;
   "# 총 " +:+ pretty n +:+ "개 결과" +:+ nl +:+ nl].

(** A text file as it is kept in the store. *)
Definition as_rows (texts : list string) : rows := (fun t => [VStr t]) <$> texts.

(** The state after [path] was written with [content] and the clock was
    read once. *)
Definition written_at (path : string) (content : rows) (s : state) : state :=
  State (sent s) (S (clock_reads s)) (sleeps s) (printed s)
        (<[path := content]> (files s)) (dispatched s).

(** The lines that [load_list_from_file] keeps: of the first [max_items]
    lines, stripped, those that are not empty and do not start with [#]. *)
Definition kept_items (D : Disk) (max_items : Z) (lines : list string) : list string :=
  filter (fun item => keeps item = true) (strip D <$> take (Z.to_nat max_items) lines).

(** The status of an outcome is [success]. *)
Definition succeeded (result : outcome) : Prop :=
  o_status result = Some (VStr "success").

(** The keys of every success record of the domain parser. *)
Definition domain_keys : gset string :=
  {["query"]} ∪ list_to_set scalar_fields ∪ list_to_set list_fields.

(** The first child of an element with a given tag, and all of them. *)
Definition first_child (elem : Element) (name : string) : option Element :=
  head (filter (fun e => tag e = name) (children elem)).

Definition children_named (elem : Element) (name : string) : list Element :=
  filter (fun e => tag e = name) (children elem).

(** A field that is [None] or a string, not a list. *)
Definition scalar (v : value) : Prop :=
  match v with
  | VList _ => False
  | _ => True
  end.

(** The top-level scalars of an IP record. *)
Definition ip_scalar_fields : list string :=
  ["query"; "queryType"; "registry"; "countryCode"].

(** The eight flattening loops of the IP parser: the key prefix and the
    path of each, the network-info blocks and the technical-contact blocks. *)
Definition net_blocks : list (string * string) :=
  [("korean_ISP_", "./korean/ISP/netInfo/*");
   ("korean_user_", "./korean/user/netInfo/*");
   ("english_ISP_", "./english/ISP/netInfo/*");
   ("english_user_", "./english/user/netInfo/*")].

Definition contact_blocks : list (string * string) :=
  [("korean_ISP_contact_", "./korean/ISP/techContact/*");
   ("korean_user_contact_", "./korean/user/techContact/*");
   ("english_ISP_contact_", "./english/ISP/techContact/*");
   ("english_user_contact_", "./english/user/techContact/*")].

(** The last element of a sequence with a given tag. *)
Definition last_tagged (elems : list Element) (name : string) : option Element :=
  last (filter (fun e => tag e = name) elems).

(** The outcome of [lookup_whois] for a key it refuses. *)
Definition refusal (query : string) : outcome :=
  Outcome (Some (VStr query)) (Some (VStr "error")) None
          (Some (VStr "API 서비스 키가 필요합니다.")) None.

(** The answer of [query_whois_api] to a transport exception. *)
Definition transport_failure (e : exn) (query : string) : record :=
  <["query" := VStr query]>
    (<["error" := VStr ("API 호출 중 오류: " +:+ exn_type e +:+ ": "
                        +:+ exn_str e +:+ nl +:+ exn_traceback e)]> ∅).

(** The answer of [query_whois_api] to what the GET gave. *)
Definition answer_of (W : World) (is_ip : bool) (query : string)
    (got : exn + response) : record :=
  match got with
  | inl e => transport_failure e query
  | inr resp =>
      if (status_code resp =? 200)%Z then parse_for W is_ip (response_text resp) query
      else http_failure (status_code resp) query
  end.

(** The outcome that [lookup_whois] wraps around an answer. *)
Definition outcome_of (query : string) (whois_data : record) (t : string) : outcome :=
  Outcome (Some (VStr query))
          (Some (VStr (if bool_decide (whois_data !! "error" = None)
                       then "success" else "error")))
          (Some whois_data) None (Some (VStr t)).

(** A world in which no query counts as an IP address. *)
Definition without_ip (W : World) : World := {|
  WHOIS_SERVICE_KEY := WHOIS_SERVICE_KEY W;
  fromstring := fromstring W;
  ip_address := fun _ => false;
  upstream := upstream W;
  isoformat_now := isoformat_now W;
  open_w := open_w W;
  write_error := write_error W;
  close_error := close_error W;
  print_error := print_error W;
  sleep_nan := sleep_nan W
|}.

(** The lookups of a list of items, one after the other. *)
Definition lookups (W : World) (items : list string) : M (list outcome) :=
  mapM (fun item => lookup_whois W item None) items.

(** Two states with the same requests sent and the same clock. *)
Definition same_net (s1 s2 : state) : Prop :=
  sent s1 = sent s2 /\ clock_reads s1 = clock_reads s2.

Global Instance succeeded_dec (result : outcome) : Decision (succeeded result).
Proof. unfold succeeded. apply _. Defined.


(** A step that leaves the sleeps, the progress lines, the files and the
    record of the batches as they were. *)
Definition quiet (s s' : state) : Prop :=
  sleeps s' = sleeps s /\ printed s' = printed s /\ files s' = files s
  /\ dispatched s' = dispatched s.

(** The state after a sleep that came to its end, and after a progress
    line. *)
Definition slept (s : state) : state :=
  State (sent s) (clock_reads s) (S (sleeps s)) (printed s) (files s) (dispatched s).

Definition with_line (line : Z * Z) (s : state) : state :=
  State (sent s) (clock_reads s) (sleeps s) (printed s ++ [line]) (files s)
        (dispatched s).

(** The batches after which a complete run prints a progress line: those
    whose number, counted from 1, is a multiple of 10, when all of them up to
    that one were full. *)
Definition progress_after (total_items : nat) (batch_size : Z) (k : nat) : Prop :=
  (Z.of_nat k mod 10 = 0)%Z
  /\ (Z.of_nat k * batch_size <= Z.of_nat total_items)%Z.

Global Instance progress_after_dec (total_items : nat) (batch_size : Z) (k : nat) :
  Decision (progress_after total_items batch_size k).
Proof. unfold progress_after. apply _. Defined.



(** Every write to [path] goes through, and so does the closing of it. *)
Definition writes_through (W : World) (path : string) : Prop :=
  (forall content cells, write_error W path content cells = None)
  /\ (forall content, close_error W path content = None).

(** A result as the text exporter reads it, from a result of the CSV
    exporter and the items of its record in some order. *)
Definition as_listed (items_of : record -> list (string * value)) (result : outcome)
  : listed_outcome :=
  ListedOutcome (o_query result) (o_status result) (items_of <$> o_data result)
                (o_error result).

(** ** Sample documents and a sample world *)

Definition domain_xml : string :=
  "<response><whois><krdomain><name>example.kr</name><regDate>2001. 01. 01.</regDate><ns1>ns.example.kr</ns1></krdomain></whois></response>".

(** The element tree of [domain_xml], and its record node. *)
Definition domain_krdomain : Element :=
  Elem "krdomain" None
    [Elem "name" (Some "example.kr") [];
     Elem "regDate" (Some "2001. 01. 01.") [];
     Elem "ns1" (Some "ns.example.kr") []].

Definition domain_doc : Element :=
  Elem "response" None [Elem "whois" None [domain_krdomain]].

Definition no_record_xml : string :=
  "<response><result><result_code>031</result_code></result></response>".

(** The element tree of [no_record_xml]. *)
Definition no_record_doc : Element :=
  Elem "response" None
    [Elem "result" None [Elem "result_code" (Some "031") []]].

Definition ip_xml : string :=
  "<response><whois><queryType>IPv4</queryType><registry>KRNIC</registry><countryCode>KR</countryCode><korean><ISP><netInfo><orgName>KT</orgName></netInfo><techContact><name>IP Manager</name></techContact></ISP></korean></whois></response>".

(** The element tree of [ip_xml], and its [whois] node. *)
Definition ip_whois : Element :=
  Elem "whois" None
    [Elem "queryType" (Some "IPv4") [];
     Elem "registry" (Some "KRNIC") [];
     Elem "countryCode" (Some "KR") [];
     Elem "korean" None
       [Elem "ISP" None
          [Elem "netInfo" None [Elem "orgName" (Some "KT") []];
           Elem "techContact" None [Elem "name" (Some "IP Manager") []]]]].

Definition ip_doc : Element := Elem "response" None [ip_whois].

(** An IP document with the Korean ISP subtree only: [user] and [english]
    are there without children, and the network-info block has two children
    with the same tag. *)
Definition isp_only_xml : string :=
  "<response><whois><query>8.8.8.8</query><queryType>IPv4</queryType><korean><ISP><netInfo><orgName>KT</orgName><orgName>Korea Telecom</orgName></netInfo><techContact><name>IP Manager</name></techContact></ISP><user/></korean><english/></whois></response>".

(** The element tree of [isp_only_xml], and its [whois] node. *)
Definition isp_only_whois : Element :=
  Elem "whois" None
    [Elem "query" (Some "8.8.8.8") [];
     Elem "queryType" (Some "IPv4") [];
     Elem "korean" None
       [Elem "ISP" None
          [Elem "netInfo" None
             [Elem "orgName" (Some "KT") [];
              Elem "orgName" (Some "Korea Telecom") []];
           Elem "techContact" None [Elem "name" (Some "IP Manager") []]];
        Elem "user" None []];
     Elem "english" None []].

Definition isp_only_doc : Element := Elem "response" None [isp_only_whois].

(** [ET.fromstring] as a table of the inputs used below: the four documents
    above, and three inputs that are not well-formed with the messages of the
    parser, the unclosed [<response>], the empty string and [not xml]. The
    table says nothing of any other input: the last line is the entry of
    [not xml], and no statement below reads it for another input. *)
Definition sample_fromstring (xml_content : string) : fromstring_result :=
  if String.eqb xml_content domain_xml then Root domain_doc
  else if String.eqb xml_content no_record_xml then Root no_record_doc
  else if String.eqb xml_content ip_xml then Root ip_doc
  else if String.eqb xml_content isp_only_xml then Root isp_only_doc
  else if String.eqb xml_content "<response>"
       then ParseError "no element found: line 1, column 10"
  else if String.eqb xml_content ""
       then ParseError "no element found: line 1, column 0"
  else ParseError "syntax error: line 1, column 0".

(** A world in which no key is configured, the parser is
    [sample_fromstring], the upstream answers every request with HTTP 500, the
    clock stands still, every file can be opened, written and closed, every
    line can be printed, and a sleep on not-a-number raises as Python 3.13
    does. *)
Definition sample_world : World := {|
  WHOIS_SERVICE_KEY := None;
  fromstring := sample_fromstring;
  ip_address := fun v => String.eqb v "8.8.8.8";
  upstream := fun _ _ => inr (Response 500 "");
  isoformat_now := fun _ => "2024-01-01T00:00:00";
  open_w := fun _ => None;
  write_error := fun _ _ _ => None;
  close_error := fun _ _ => None;
  print_error := fun _ _ => None;
  sleep_nan := WakeRaises (Exn "ValueError" "Invalid delay: NaN (not a number)" "")
|}.

(** The same world with an upstream that answers [domain_xml] with HTTP 200
    to a query for [example.kr], [no_record_xml] with HTTP 200 to a query for
    [missing.kr], times out on [slow.kr] and answers HTTP 500 otherwise. *)
Definition serving_world : World := {|
  WHOIS_SERVICE_KEY := Some "configured-key";
  fromstring := sample_fromstring;
  ip_address := fun v => String.eqb v "8.8.8.8";
  upstream := fun _ r =>
    if String.eqb (req_query r) "example.kr" then inr (Response 200 domain_xml)
    else if String.eqb (req_query r) "missing.kr" then inr (Response 200 no_record_xml)
    else if String.eqb (req_query r) "slow.kr"
         then inl (Exn "ReadTimeout" "" "Traceback (most recent call last)")
    else inr (Response 500 "");
  isoformat_now := fun _ => "2024-01-01T00:00:00";
  open_w := fun _ => None;
  write_error := fun _ _ _ => None;
  close_error := fun _ _ => None;
  print_error := fun _ _ => None;
  sleep_nan := WakeRaises (Exn "ValueError" "Invalid delay: NaN (not a number)" "")
|}.

(** The world of [sample_world] with a device that is full: files open and
    take every write, and closing one raises. *)
Definition full_device_world : World := {|
  WHOIS_SERVICE_KEY := None;
  fromstring := sample_fromstring;
  ip_address := fun v => String.eqb v "8.8.8.8";
  upstream := fun _ _ => inr (Response 500 "");
  isoformat_now := fun _ => "2024-01-01T00:00:00";
  open_w := fun _ => None;
  write_error := fun _ _ _ => None;
  close_error := fun _ _ =>
    Some (Exn "OSError" "[Errno 28] No space left on device" "");
  print_error := fun _ _ => None;
  sleep_nan := WakeRaises (Exn "ValueError" "Invalid delay: NaN (not a number)" "")
|}.

(** Ten items to look up. *)
Definition ten_items : list string :=
  ["example.kr"; "missing.kr"; "slow.kr"; "8.8.8.8"; "a.kr"; "b.kr"; "c.kr"; "d.kr";
   "e.kr"; "f.kr"].

(** A run of [bulk_whois_lookup] in [serving_world], from the initial
    state and with a delay of an eighth of a second. *)
Definition sample_run (items : list string) (batch_size : Z)
  : ending bulk_result * state :=
  bulk_whois_lookup serving_world items batch_size (Finite 1 (-3)) initial.

(** Outcomes as [lookup_whois] builds them: a success for [example.kr],
    and the failure for a missing key. *)
Definition success_outcome : outcome :=
  Outcome (Some (VStr "example.kr")) (Some (VStr "success"))
          (Some (parse_domain_whois_xml sample_fromstring domain_xml "example.kr"))
          None (Some (VStr "2024-01-01T00:00:00")).

(** A success for [8.8.8.8], with the record of [ip_xml]. *)
Definition ip_success_outcome : outcome :=
  Outcome (Some (VStr "8.8.8.8")) (Some (VStr "success"))
          (Some (parse_ip_whois_xml sample_fromstring ip_xml "8.8.8.8"))
          None (Some (VStr "2024-01-01T00:00:00")).

Definition failure_outcome : outcome :=
  Outcome (Some (VStr "missing.kr")) (Some (VStr "error")) None
          (Some (VStr "API 서비스 키가 필요합니다.")) None.

(** A disk with one file, [items.txt], of six lines, and a [strip] that
    drops one trailing line feed and nothing else. *)
Definition sample_disk : Disk := {|
  path_exists := fun path => String.eqb path "items.txt";
  read_lines := fun path =>
    if String.eqb path "items.txt"
    then inr ["# targets" +:+ nl; "example.kr" +:+ nl; nl; "8.8.8.8" +:+ nl;
              "#skip.kr" +:+ nl; "missing.kr"]
    else inl (Exn "FileNotFoundError" "[Errno 2] No such file or directory" "");
  strip := fun line =>
    match String.rev line with
    | String c rest => if Ascii.eqb c "010"%char then String.rev rest else line
    | EmptyString => line
    end
|}.

(** Results as the text exporter reads them: a success with two fields,
    one of them empty, and a failure. *)
Definition listed_success : listed_outcome :=
  ListedOutcome (Some (VStr "example.kr")) (Some (VStr "success"))
                (Some [("query", VStr "example.kr"); ("addr", VNone);
                       ("ns1", VList [Some "ns.example.kr"])])
                None.

Definition listed_failure : listed_outcome :=
  ListedOutcome (Some (VStr "missing.kr")) (Some (VStr "error")) None
                (Some (VStr "API 서비스 키가 필요합니다.")).

(** A rendering of lists that only counts their items; [str] of a list is
    not spelled out here. *)
Definition sample_str_list (l : list (option string)) : string :=
  "[" +:+ pretty (length l) +:+ " items]".

(** * Properties *)

(** ** ElementPath *)

Lemma iterfind_steps_app (s1 s2 : list step) (elem : Element) :
  iterfind_steps (s1 ++ s2) elem
  = foldl (fun result s => select s result) (iterfind_steps s1 elem) s2.
Proof. unfold iterfind_steps. apply foldl_app. Qed.

Lemma select_nil (s : step) : select s [] = [].
Proof. by destruct s. Qed.

Lemma select_all_nil (steps : list step) :
  foldl (fun result s => select s result) [] steps = [].
Proof. induction steps as [|s steps IH]; simpl; [done|]. by rewrite select_nil. Qed.

(** A path that extends a path without matches has no matches. *)
Lemma findall_extend_nil (elem : Element) (p1 p2 : string) (rest : list step) :
  tokenize p2 = tokenize p1 ++ rest ->
  findall elem p1 = [] ->
  findall elem p2 = [].
Proof.
  unfold findall. intros -> Hnil.
  rewrite iterfind_steps_app, Hnil. apply select_all_nil.
Qed.

(** Where [*] selects nothing, a tag name selects nothing. *)
Lemma select_child_of_star (name : string) (result : list Element) :
  select Star result = [] -> select (Child name) result = [].
Proof.
  induction result as [|e result IH]; [done|]. simpl.
  intros Hnil. apply app_eq_nil in Hnil as [He Hrest].
  rewrite He. simpl. by apply IH.
Qed.

(** A path through a child of elements without children has no matches. *)
Lemma findall_below_star (elem : Element) (p pstar p2 name : string)
    (rest : list step) :
  tokenize pstar = tokenize p ++ [Star] ->
  tokenize p2 = tokenize p ++ Child name :: rest ->
  findall elem pstar = [] ->
  findall elem p2 = [].
Proof.
  unfold findall. intros -> -> Hnil.
  rewrite iterfind_steps_app in Hnil. simpl in Hnil.
  rewrite iterfind_steps_app. cbn [foldl].
  rewrite (select_child_of_star _ _ Hnil). apply select_all_nil.
Qed.

(** [find] of a plain tag name is the first child with that tag. *)
Lemma find_child (elem : Element) (name : string) :
  tokenize name = [Child name] ->
  find elem name = head (filter (fun e => tag e = name) (children elem)).
Proof.
  unfold find, findall, iterfind_steps. intros ->. simpl.
  by rewrite app_nil_r.
Qed.

(** ** The record normalizers *)

Section ParserFacts.
Variable fromstring : string -> fromstring_result.

Lemma domain_query (xml_content query : string) :
  parse_domain_whois_xml fromstring xml_content query !! "query"
  = Some (VStr query).
Proof.
  unfold parse_domain_whois_xml.
  destruct (fromstring xml_content) as [e|root]; [by simplify_map_eq|].
  destruct (find root "./whois/krdomain"); by simplify_map_eq.
Qed.

Lemma domain_found (xml_content query : string) (root krdomain : Element) :
  fromstring xml_content = Root root ->
  find root "./whois/krdomain" = Some krdomain ->
  let r := parse_domain_whois_xml fromstring xml_content query in
  r !! "error" = None
  /\ (forall f, f ∈ scalar_fields -> r !! f = Some (of_text (get_xml_text krdomain f)))
  /\ (forall f, f ∈ list_fields -> r !! f = Some (texts (findall krdomain f))).
Proof.
  intros Hroot Hfind. unfold parse_domain_whois_xml. rewrite Hroot, Hfind.
  cbv zeta. split; [by simplify_map_eq|]. split; intros f Hf.
  - unfold scalar_fields in Hf.
    repeat (apply elem_of_cons in Hf as [-> | Hf]; [by simplify_map_eq|]).
    by apply elem_of_nil in Hf.
  - unfold list_fields in Hf.
    repeat (apply elem_of_cons in Hf as [-> | Hf]; [by simplify_map_eq|]).
    by apply elem_of_nil in Hf.
Qed.
End ParserFacts.

Lemma malformed_is_not_mismatch (e what query : string) :
  String.get 0 what ≠ Some "X"%char ->
  malformed e query ≠ schema_mismatch what query.
Proof.
  intros Hfirst Heq.
  apply (f_equal (fun r : record => r !! "error")) in Heq.
  unfold malformed, schema_mismatch in Heq. simplify_map_eq.
  destruct what as [|c what]; simpl in *; [discriminate|].
  injection Heq as Hc _. by subst c.
Qed.

(** C5. On a well-formed document without a [./whois/krdomain] node the
    domain parser answers with the record-node-not-found failure; on input
    that is not well-formed it answers with the XML-parse failure, which is a
    different record; and on a well-formed document the answer is an error
    exactly when the record node is missing. *)
Theorem parse_domain_failure_kinds
    (fromstring : string -> fromstring_result) (xml_content query : string) :
  (forall root,
      fromstring xml_content = Root root ->
      find root "./whois/krdomain" = None ->
      parse_domain_whois_xml fromstring xml_content query
      = schema_mismatch "krdomain" query
      /\ is_error (parse_domain_whois_xml fromstring xml_content query))
  /\ (forall e,
      fromstring xml_content = ParseError e ->
      parse_domain_whois_xml fromstring xml_content query = malformed e query
      /\ is_error (parse_domain_whois_xml fromstring xml_content query)
      /\ malformed e query ≠ schema_mismatch "krdomain" query)
  /\ (forall root,
      fromstring xml_content = Root root ->
      is_error (parse_domain_whois_xml fromstring xml_content query)
      <-> find root "./whois/krdomain" = None).
Proof.
  split; [|split].
  - intros root Hroot Hnone. unfold parse_domain_whois_xml, is_error.
    rewrite Hroot, Hnone. split; [done|]. by simplify_map_eq.
  - intros e He. unfold parse_domain_whois_xml, is_error. rewrite He.
    split; [done|]. split; [by simplify_map_eq|].
    by apply malformed_is_not_mismatch.
  - intros root Hroot. split.
    + intros Herr. destruct (find root "./whois/krdomain") as [kr|] eqn:Hfind; [|done].
      destruct (domain_found fromstring xml_content query root kr Hroot Hfind)
        as [Hok _].
      unfold is_error in Herr. rewrite Hok in Herr. by destruct Herr.
    + intros Hnone. unfold parse_domain_whois_xml, is_error.
      rewrite Hroot, Hnone. by simplify_map_eq.
Qed.

Lemma parse_domain_failure_kinds_witness :
  (parse_domain_whois_xml sample_fromstring no_record_xml "example.kr"
   = schema_mismatch "krdomain" "example.kr"
   /\ is_error (parse_domain_whois_xml sample_fromstring no_record_xml "example.kr"))
  /\ (parse_domain_whois_xml sample_fromstring "<response>" "example.kr"
      = malformed "no element found: line 1, column 10" "example.kr"
      /\ is_error (parse_domain_whois_xml sample_fromstring "<response>" "example.kr")
      /\ malformed "no element found: line 1, column 10" "example.kr"
         ≠ schema_mismatch "krdomain" "example.kr")
  /\ (is_error (parse_domain_whois_xml sample_fromstring domain_xml "example.kr")
      <-> find domain_doc "./whois/krdomain" = None).
Proof.
  split; [|split].
  - apply (proj1 (parse_domain_failure_kinds sample_fromstring no_record_xml
                    "example.kr") no_record_doc); reflexivity.
  - apply (proj1 (proj2 (parse_domain_failure_kinds sample_fromstring "<response>"
                           "example.kr"))); reflexivity.
  - apply (proj2 (proj2 (parse_domain_failure_kinds sample_fromstring domain_xml
                           "example.kr"))); reflexivity.
Defined.



(** C10. The legacy [parse_whois_xml] and the IP-aware
    [parse_domain_whois_xml] return the same mapping for every XML input and
    every query, whatever [ET.fromstring] makes of the input. *)
Theorem legacy_parser_agrees
    (fromstring : string -> fromstring_result) (xml_content query : string) :
  Legacy.parse_whois_xml fromstring xml_content query
  = parse_domain_whois_xml fromstring xml_content query.
Proof.
  unfold Legacy.parse_whois_xml, parse_domain_whois_xml.
  destruct (fromstring xml_content) as [e|root]; [reflexivity|].
  destruct (find root "./whois/krdomain") as [krdomain|]; reflexivity.
Qed.

Lemma prefix_append (p t : string) : String.prefix p (p +:+ t) = true.
Proof.
  induction p as [|c p IH]; simpl; [by destruct t|].
  by destruct (Ascii.ascii_dec c c).
Qed.

(** *** The flattening loops of the IP parser *)

Lemma flatten_snoc (prefix : string) (elems : list Element) (child : Element)
    (result : record) :
  flatten prefix (elems ++ [child]) result
  = <[prefix +:+ tag child := of_text (text child)]> (flatten prefix elems result).
Proof. unfold flatten. by rewrite foldl_app. Qed.

Lemma dom_flatten (prefix : string) (elems : list Element) (result : record) :
  dom (flatten prefix elems result) = dom result ∪ compound_keys prefix elems.
Proof.
  induction elems as [|child elems IH] using rev_ind.
  - unfold compound_keys. simpl. set_solver.
  - rewrite flatten_snoc, dom_insert_L, IH. unfold compound_keys.
    rewrite fmap_app, list_to_set_app_L. simpl. set_solver.
Qed.

Lemma lookup_flatten_other (prefix : string) (elems : list Element)
    (result : record) (k : string) :
  (forall t, prefix +:+ t ≠ k) ->
  flatten prefix elems result !! k = result !! k.
Proof.
  intros Hk. induction elems as [|child elems IH] using rev_ind; [done|].
  rewrite flatten_snoc, lookup_insert_ne; [done|apply Hk].
Qed.

Lemma elem_of_compound_keys (prefix : string) (elems : list Element) (k : string) :
  k ∈ compound_keys prefix elems -> exists t, k = prefix +:+ t.
Proof.
  unfold compound_keys. rewrite elem_of_list_to_set, list_elem_of_fmap.
  intros (child & -> & _). by exists (tag child).
Qed.

(** Closes [prefix +:+ t ≠ k] for a literal prefix and a literal key that
    differ at some character. *)
Ltac differ := let t := fresh in let H := fresh in intros t H; simpl in H; discriminate H.

Section IpParserFacts.
Variable fromstring : string -> fromstring_result.

Lemma ip_found (xml_content query : string) (root whois_elem : Element) :
  fromstring xml_content = Root root ->
  find root "./whois" = Some whois_elem ->
  let r := parse_ip_whois_xml fromstring xml_content query in
  r !! "error" = None
  /\ r !! "query" = Some (of_text (findtext whois_elem "query"))
  /\ r !! "queryType" = Some (of_text (findtext whois_elem "queryType"))
  /\ r !! "registry" = Some (of_text (findtext whois_elem "registry"))
  /\ r !! "countryCode" = Some (of_text (findtext whois_elem "countryCode")).
Proof.
  intros Hroot Hfind. unfold parse_ip_whois_xml. rewrite Hroot, Hfind.
  cbv zeta.
  repeat split; rewrite !lookup_flatten_other by differ; by simplify_map_eq.
Qed.

Lemma ip_not_found (xml_content query : string) :
  (forall root, fromstring xml_content = Root root -> find root "./whois" = None) ->
  parse_ip_whois_xml fromstring xml_content query !! "error" <> None.
Proof.
  intros Hnone. unfold parse_ip_whois_xml.
  destruct (fromstring xml_content) as [e|root] eqn:Hroot; [by simplify_map_eq|].
  rewrite (Hnone root eq_refl). by simplify_map_eq.
Qed.

Lemma dom_ip_record (xml_content query : string) (root whois_elem : Element) :
  fromstring xml_content = Root root ->
  find root "./whois" = Some whois_elem ->
  dom (parse_ip_whois_xml fromstring xml_content query)
  = ip_base_keys
    ∪ compound_keys "korean_ISP_" (findall whois_elem "./korean/ISP/netInfo/*")
    ∪ compound_keys "korean_ISP_contact_" (findall whois_elem "./korean/ISP/techContact/*")
    ∪ compound_keys "korean_user_" (findall whois_elem "./korean/user/netInfo/*")
    ∪ compound_keys "korean_user_contact_" (findall whois_elem "./korean/user/techContact/*")
    ∪ compound_keys "english_ISP_" (findall whois_elem "./english/ISP/netInfo/*")
    ∪ compound_keys "english_ISP_contact_" (findall whois_elem "./english/ISP/techContact/*")
    ∪ compound_keys "english_user_" (findall whois_elem "./english/user/netInfo/*")
    ∪ compound_keys "english_user_contact_" (findall whois_elem "./english/user/techContact/*").
Proof.
  intros Hroot Hfind. unfold parse_ip_whois_xml. rewrite Hroot, Hfind.
  cbv zeta. rewrite !dom_flatten, !dom_insert_L, dom_empty_L.
  unfold ip_base_keys. set_solver.
Qed.
End IpParserFacts.

(** C3 (as the code has it). Every record of the domain parser, error or
    not, holds the query string passed in under [query]. A non-error record
    of the IP parser holds under [query] what the document itself says in its
    [whois/query] element: [None] when the element is missing, the empty
    string when it has no text; the query string passed in is not used. *)
Theorem record_query_field
    (fromstring : string -> fromstring_result) (xml_content query : string) :
  parse_domain_whois_xml fromstring xml_content query !! "query" = Some (VStr query)
  /\ (¬ is_error (parse_ip_whois_xml fromstring xml_content query) ->
      exists root whois_elem,
        fromstring xml_content = Root root
        /\ find root "./whois" = Some whois_elem
        /\ parse_ip_whois_xml fromstring xml_content query !! "query"
           = Some (of_text (findtext whois_elem "query"))).
Proof.
  split; [apply domain_query|].
  intros Hok.
  destruct (fromstring xml_content) as [e|root] eqn:Hroot.
  { exfalso. apply Hok. unfold is_error, parse_ip_whois_xml. rewrite Hroot.
    by simplify_map_eq. }
  destruct (find root "./whois") as [whois_elem|] eqn:Hfind.
  - exists root, whois_elem. split; [done|]. split; [done|].
    by destruct (ip_found fromstring xml_content query root whois_elem Hroot Hfind)
      as (_ & Hq & _).
  - exfalso. apply Hok. unfold is_error, parse_ip_whois_xml. rewrite Hroot, Hfind.
    by simplify_map_eq.
Qed.

Lemma ip_doc_parses :
  ¬ is_error (parse_ip_whois_xml sample_fromstring ip_xml "8.8.8.8").
Proof.
  unfold is_error.
  destruct (ip_found sample_fromstring ip_xml "8.8.8.8" ip_doc ip_whois
              eq_refl eq_refl) as [-> _].
  by intros [? ?].
Qed.

Lemma record_query_field_witness :
  parse_domain_whois_xml sample_fromstring ip_xml "8.8.8.8" !! "query"
  = Some (VStr "8.8.8.8")
  /\ exists root whois_elem,
       sample_fromstring ip_xml = Root root
       /\ find root "./whois" = Some whois_elem
       /\ parse_ip_whois_xml sample_fromstring ip_xml "8.8.8.8" !! "query"
          = Some (of_text (findtext whois_elem "query")).
Proof.
  destruct (record_query_field sample_fromstring ip_xml "8.8.8.8") as [Hd Hi].
  split; [exact Hd|]. apply Hi. exact ip_doc_parses.
Defined.

(** C3 as stated fails: the IP parser turns [ip_xml], a well-formed
    document with a [whois] node and no [query] element, into a non-error
    record whose [query] field is [None], not the query passed in. *)
Lemma ip_record_query_is_not_the_argument :
  ¬ is_error (parse_ip_whois_xml sample_fromstring ip_xml "8.8.8.8")
  /\ parse_ip_whois_xml sample_fromstring ip_xml "8.8.8.8" !! "query" = Some VNone
  /\ parse_ip_whois_xml sample_fromstring ip_xml "8.8.8.8" !! "query"
     ≠ Some (VStr "8.8.8.8").
Proof.
  split; [exact ip_doc_parses|].
  assert (parse_ip_whois_xml sample_fromstring ip_xml "8.8.8.8" !! "query"
          = Some VNone) as ->.
  { by vm_compute. }
  by split.
Qed.

(** C6. On a well-formed IP document with a [whois] node in which only the
    Korean ISP subtree is populated, that is with nothing below [english] and
    nothing below [korean/user] (either element may be missing, or there
    without children), the record of the IP parser has exactly the four
    top-level keys and the compound keys [korean_ISP_<tag>] and
    [korean_ISP_contact_<tag>] of the children present; it is not an error,
    and none of its keys starts with [english_] or [korean_user_]. *)
Theorem parse_ip_korean_isp_only
    (fromstring : string -> fromstring_result) (xml_content query : string)
    (root whois_elem : Element) :
  fromstring xml_content = Root root ->
  find root "./whois" = Some whois_elem ->
  findall whois_elem "./english/*" = [] ->
  findall whois_elem "./korean/user/*" = [] ->
  let r := parse_ip_whois_xml fromstring xml_content query in
  ¬ is_error r
  /\ dom r
     = ip_base_keys
       ∪ compound_keys "korean_ISP_" (findall whois_elem "./korean/ISP/netInfo/*")
       ∪ compound_keys "korean_ISP_contact_"
           (findall whois_elem "./korean/ISP/techContact/*")
  /\ (forall k, k ∈ dom r ->
        (k ∈ ip_base_keys \/ String.prefix "korean_ISP_" k = true)
        /\ String.prefix "english_" k = false
        /\ String.prefix "korean_user_" k = false).
Proof.
  intros Hroot Hfind Heng Huser r.
  assert (dom r
          = ip_base_keys
            ∪ compound_keys "korean_ISP_" (findall whois_elem "./korean/ISP/netInfo/*")
            ∪ compound_keys "korean_ISP_contact_"
                (findall whois_elem "./korean/ISP/techContact/*")) as Hdom.
  { unfold r. rewrite (dom_ip_record _ _ _ root whois_elem Hroot Hfind).
    rewrite (findall_below_star whois_elem "./korean/user" "./korean/user/*"
               "./korean/user/netInfo/*" "netInfo" [Star] eq_refl eq_refl Huser).
    rewrite (findall_below_star whois_elem "./korean/user" "./korean/user/*"
               "./korean/user/techContact/*" "techContact" [Star] eq_refl eq_refl
               Huser).
    rewrite (findall_below_star whois_elem "./english" "./english/*"
               "./english/ISP/netInfo/*" "ISP" [Child "netInfo"; Star]
               eq_refl eq_refl Heng).
    rewrite (findall_below_star whois_elem "./english" "./english/*"
               "./english/ISP/techContact/*" "ISP" [Child "techContact"; Star]
               eq_refl eq_refl Heng).
    rewrite (findall_below_star whois_elem "./english" "./english/*"
               "./english/user/netInfo/*" "user" [Child "netInfo"; Star]
               eq_refl eq_refl Heng).
    rewrite (findall_below_star whois_elem "./english" "./english/*"
               "./english/user/techContact/*" "user" [Child "techContact"; Star]
               eq_refl eq_refl Heng).
    unfold compound_keys at 3 4 5 6 7 8. simpl. set_solver. }
  split; [|split; [exact Hdom|]].
  - unfold is_error, r.
    destruct (ip_found fromstring xml_content query root whois_elem Hroot Hfind)
      as [-> _].
    by intros [? ?].
  - intros k. rewrite Hdom, !elem_of_union.
    intros [[Hbase | Hnet] | Hcontact].
    + split; [by left|]. unfold ip_base_keys in Hbase.
      rewrite !elem_of_union, !elem_of_singleton in Hbase.
      destruct Hbase as [[[-> | ->] | ->] | ->]; by split.
    + apply elem_of_compound_keys in Hnet as [t ->].
      split; [right; apply prefix_append|by split].
    + apply elem_of_compound_keys in Hcontact as [t ->].
      split; [right|by split].
      change ("korean_ISP_contact_" +:+ t) with ("korean_ISP_" +:+ "contact_" +:+ t).
      apply prefix_append.
Qed.

Lemma parse_ip_korean_isp_only_witness :
  let r := parse_ip_whois_xml sample_fromstring isp_only_xml "8.8.8.8" in
  ¬ is_error r
  /\ dom r
     = ip_base_keys
       ∪ compound_keys "korean_ISP_" (findall isp_only_whois "./korean/ISP/netInfo/*")
       ∪ compound_keys "korean_ISP_contact_"
           (findall isp_only_whois "./korean/ISP/techContact/*")
  /\ (forall k, k ∈ dom r ->
        (k ∈ ip_base_keys \/ String.prefix "korean_ISP_" k = true)
        /\ String.prefix "english_" k = false
        /\ String.prefix "korean_user_" k = false).
Proof.
  apply (parse_ip_korean_isp_only sample_fromstring isp_only_xml "8.8.8.8"
           isp_only_doc isp_only_whois);
    reflexivity.
Defined.

(** ** The single-item fetcher *)

(** C9. With no key given in the call, and the configured key absent or
    equal to the placeholder, [lookup_whois] returns at once the failure
    outcome with the key-required message; the state is the one it started
    from, so no request was sent and the clock was not read. *)
Theorem lookup_whois_without_key (W : World) (query : string) (s : state) :
  WHOIS_SERVICE_KEY W = None
  \/ WHOIS_SERVICE_KEY W = Some "your_service_key_here" ->
  lookup_whois W query None s
  = (inr (Outcome (Some (VStr query)) (Some (VStr "error")) None
                  (Some (VStr "API 서비스 키가 필요합니다.")) None),
     s).
Proof.
  intros Hkey. unfold lookup_whois, try_except, SERVICE_KEY, or_key.
  by destruct Hkey as [-> | ->].
Qed.

Lemma lookup_whois_without_key_witness :
  lookup_whois sample_world "example.kr" None initial
  = (inr (Outcome (Some (VStr "example.kr")) (Some (VStr "error")) None
                  (Some (VStr "API 서비스 키가 필요합니다.")) None),
     initial).
Proof.
  apply (lookup_whois_without_key sample_world "example.kr" initial).
  left. reflexivity.
Defined.

(** With a usable key, [lookup_whois] sends one request, reads the clock
    once, and wraps the answer of [query_whois_api] under [data]; it sets no
    [error] key of its own. *)
Lemma lookup_whois_response (W : World) (query : string) (service_key : option string)
    (s : state) (code : Z) (body : string) :
  let api_key := or_key service_key (SERVICE_KEY W) in
  let is_ip := is_ip_address W query in
  unusable api_key = false ->
  upstream W (sent s) (request_for query api_key is_ip) = inr (Response code body) ->
  let whois_data :=
    if (code =? 200)%Z then parse_for W is_ip body query
    else http_failure code query in
  lookup_whois W query service_key s
  = (inr (Outcome (Some (VStr query))
                  (Some (VStr (if bool_decide (whois_data !! "error" = None)
                               then "success" else "error")))
                  (Some whois_data) None
                  (Some (VStr (isoformat_now W (clock_reads s))))),
     after_lookup (request_for query api_key is_ip) s).
Proof.
  intros api_key is_ip Hkey Hup whois_data.
  unfold lookup_whois, try_except. fold api_key. fold is_ip.
  unfold unusable in Hkey. rewrite Hkey.
  unfold bind, query_whois_api, try_except, bind, client_get.
  unfold request_for in Hup. rewrite Hup.
  unfold whois_data, parse_for, http_failure, after_lookup, request_for. simpl.
  by destruct (code =? 200)%Z, is_ip.
Qed.

(** [lookup_whois] never raises: whatever the world and the state, it
    returns an outcome. *)
Lemma lookup_whois_returns (W : World) (query : string) (service_key : option string)
    (s : state) :
  exists o s', lookup_whois W query service_key s = (inr o, s').
Proof.
  unfold lookup_whois, try_except.
  destruct (_ || _); [by eexists _, _|].
  unfold bind, query_whois_api, try_except, bind, client_get.
  destruct (upstream W _ _) as [e|[code body]]; simpl.
  - by eexists _, _.
  - destruct (code =? 200)%Z, (is_ip_address W query); simpl; by eexists _, _.
Qed.

(** Given a usable key, a response with a status other than 200, or one
    with status 200 that the parser turns into an error, makes [lookup_whois]
    return (not raise) an outcome with the original query, status [error] and
    a timestamp; the message is under [data], in the record's [error] field,
    and the outcome itself has no [error] field. *)
Lemma lookup_whois_upstream_failure (W : World) (query : string)
    (service_key : option string) (s : state) (code : Z) (body : string) :
  let api_key := or_key service_key (SERVICE_KEY W) in
  let is_ip := is_ip_address W query in
  unusable api_key = false ->
  upstream W (sent s) (request_for query api_key is_ip)
  = inr (Response code body) ->
  code ≠ 200%Z \/ is_error (parse_for W is_ip body query) ->
  exists whois_data message,
    lookup_whois W query service_key s
    = (inr (Outcome (Some (VStr query)) (Some (VStr "error")) (Some whois_data)
                    None (Some (VStr (isoformat_now W (clock_reads s))))),
       after_lookup (request_for query api_key is_ip) s)
    /\ whois_data !! "error" = Some message
    /\ (code ≠ 200%Z -> whois_data = http_failure code query)
    /\ (code = 200%Z -> whois_data = parse_for W is_ip body query).
Proof.
  intros api_key is_ip Hkey Hup Hfail.
  rewrite (lookup_whois_response W query service_key s code body Hkey Hup).
  fold api_key. fold is_ip.
  destruct (Z.eqb_spec code 200) as [Heq | Hne].
  - destruct Hfail as [Hne | [message Hmsg]]; [done|].
    exists (parse_for W is_ip body query), message.
    rewrite bool_decide_eq_false_2 by (rewrite Hmsg; done).
    by repeat split.
  - exists (http_failure code query),
      (VStr ("API 호출 실패: HTTP " +:+ pretty code)).
    assert (http_failure code query !! "error"
            = Some (VStr ("API 호출 실패: HTTP " +:+ pretty code))) as Herr.
    { unfold http_failure. by simplify_map_eq. }
    rewrite bool_decide_eq_false_2 by (rewrite Herr; done).
    by repeat split.
Qed.

(** C2 at two lookups with the configured key: [missing.kr], answered
    with status 200 and a document without record node, and [other.kr],
    answered with status 500. Both outcomes have status [error], the query and
    a timestamp, and carry the message under [data]; their own [error] field
    is absent. *)
Theorem lookup_whois_failure_without_error_field :
  fst (lookup_whois serving_world "missing.kr" None initial)
  = inr (Outcome (Some (VStr "missing.kr")) (Some (VStr "error"))
                 (Some (schema_mismatch "krdomain" "missing.kr")) None
                 (Some (VStr "2024-01-01T00:00:00")))
  /\ fst (lookup_whois serving_world "other.kr" None initial)
     = inr (Outcome (Some (VStr "other.kr")) (Some (VStr "error"))
                    (Some (http_failure 500 "other.kr")) None
                    (Some (VStr "2024-01-01T00:00:00"))).
Proof.
  split.
  - rewrite (lookup_whois_response serving_world "missing.kr" None initial 200
               no_record_xml eq_refl eq_refl).
    reflexivity.
  - rewrite (lookup_whois_response serving_world "other.kr" None initial 500
               "" eq_refl eq_refl).
    reflexivity.
Qed.

(** ** Batching *)

Lemma range_forward (total : nat) (batch_size : Z) :
  (1 <= batch_size)%Z ->
  range 0 (Z.of_nat total) batch_size
  = inr ((fun k : nat => (Z.of_nat k * batch_size)%Z)
           <$> seq 0 (batch_count total batch_size)).
Proof.
  intros Hb. unfold range, batch_count.
  destruct (Z.eqb_spec batch_size 0) as [Hz | _]; [lia|].
  f_equal.
Qed.

Lemma batch_count_covers (total : nat) (batch_size : Z) :
  (1 <= batch_size)%Z ->
  total <= batch_count total batch_size * Z.to_nat batch_size.
Proof.
  intros Hb. unfold batch_count, range_length.
  destruct (Z.ltb_spec 0 batch_size) as [_ | ?]; [|lia].
  destruct (Z.ltb_spec 0 (Z.of_nat total)) as [Hpos | ?]; [|lia].
  pose proof (Z.div_mod (Z.of_nat total - 0 - 1) batch_size ltac:(lia)) as Hdiv.
  pose proof (Z.mod_pos_bound (Z.of_nat total - 0 - 1) batch_size ltac:(lia)) as Hmod.
  pose proof (Z.div_pos (Z.of_nat total - 0 - 1) batch_size ltac:(lia) ltac:(lia)) as Hq.
  set (q := ((Z.of_nat total - 0 - 1) / batch_size)%Z) in *.
  apply Nat2Z.inj_le. rewrite Nat2Z.inj_mul, !Z2Nat.id by lia. nia.
Qed.

(** The slice that starts batch [k] is the list without its first
    [k * batch_size] items, cut at [batch_size]. *)
Lemma slice_batch {A} (items : list A) (k : nat) (batch_size : Z) :
  (1 <= batch_size)%Z ->
  slice items (Z.of_nat k * batch_size) (Z.of_nat k * batch_size + batch_size)
  = take (Z.to_nat batch_size) (drop (k * Z.to_nat batch_size) items).
Proof.
  intros Hb.
  assert (exists b, batch_size = Z.of_nat b /\ 1 <= b) as (b & -> & Hb').
  { exists (Z.to_nat batch_size). lia. }
  rewrite Nat2Z.id, <- Nat2Z.inj_mul, <- Nat2Z.inj_add.
  unfold slice, clamp.
  generalize (k * b). intros kb.
  destruct (Z.ltb_spec (Z.of_nat kb) 0) as [? | _]; [lia|].
  destruct (Z.ltb_spec (Z.of_nat (kb + b)) 0) as [? | _]; [lia|].
  destruct (decide (length items <= kb)) as [Hout | Hin].
  - rewrite (drop_ge items kb) by done. rewrite take_nil.
    rewrite !Z.min_r by lia. rewrite Z.sub_diag. simpl. apply take_0.
  - rewrite (Z.min_l (Z.of_nat kb)) by lia. rewrite Nat2Z.id.
    destruct (decide (kb + b <= length items)) as [Hfull | Hlast].
    + rewrite Z.min_l by lia. f_equal. lia.
    + rewrite Z.min_r by lia.
      rewrite !take_ge; [done | rewrite length_drop; lia | rewrite length_drop; lia].
Qed.

Lemma concat_batches {A} (items : list A) (b m : nat) :
  concat ((fun k => take b (drop (k * b) items)) <$> seq 0 m) = take (m * b) items.
Proof.
  induction m as [|m IH]; [done|].
  rewrite seq_S, fmap_app, concat_app, IH. simpl. rewrite app_nil_r.
  rewrite take_take_drop. f_equal. lia.
Qed.

(** The batches of the loop put together are the item list. *)
Lemma batches_cover {A} (items : list A) (batch_size : Z) :
  (1 <= batch_size)%Z ->
  exists starts,
    range 0 (Z.of_nat (length items)) batch_size = inr starts
    /\ concat ((fun i => slice items i (i + batch_size)) <$> starts) = items.
Proof.
  intros Hb. eexists. split; [by apply range_forward|].
  rewrite <- list_fmap_compose.
  rewrite (list_fmap_ext _
             (fun k => take (Z.to_nat batch_size)
                            (drop (k * Z.to_nat batch_size) items))).
  - rewrite concat_batches. apply take_ge. by apply batch_count_covers.
  - intros _ k _. simpl. by apply slice_batch.
Qed.

(** ** The batch orchestrator *)

(** *** Steps of the two monads *)

Lemma bind_returned {A B} (m : M A) (k : A -> M B) (s s' : state) (a : A) :
  m s = (inr a, s') -> bind m k s = k a s'.
Proof. unfold bind. by intros ->. Qed.

Lemma bind_raised {A B} (m : M A) (k : A -> M B) (s s' : state) (e : exn) :
  m s = (inl e, s') -> bind m k s = (inl e, s').
Proof. unfold bind. by intros ->. Qed.

Lemma bindT_returned {A B} (m : T A) (k : A -> T B) (s s' : state) (a : A) :
  m s = (Returned (inr a), s') -> bindT m k s = k a s'.
Proof. unfold bindT. by intros ->. Qed.

Lemma bindT_raised {A B} (m : T A) (k : A -> T B) (s s' : state) (e : exn) :
  m s = (Returned (inl e), s') -> bindT m k s = (Returned (inl e), s').
Proof. unfold bindT. by intros ->. Qed.

Lemma bindT_pending {A B} (m : T A) (k : A -> T B) (s s' : state) :
  m s = (Pending, s') -> bindT m k s = (Pending, s').
Proof. unfold bindT. by intros ->. Qed.

(** *** Lookups one after the other *)

(** [lookup_whois] in one equation: a refusal that leaves the state alone,
    or one request, one reading of the clock, and the answer wrapped. *)
Lemma lookup_whois_unfold (W : World) (query : string) (service_key : option string)
    (s : state) :
  let api_key := or_key service_key (SERVICE_KEY W) in
  let is_ip := is_ip_address W query in
  let r := request_for query api_key is_ip in
  lookup_whois W query service_key s
  = if unusable api_key then (inr (refusal query), s)
    else (inr (outcome_of query (answer_of W is_ip query (upstream W (sent s) r))
                          (isoformat_now W (clock_reads s))),
          after_lookup r s).
Proof.
  intros api_key is_ip r. unfold lookup_whois, try_except. fold api_key. fold is_ip.
  unfold unusable. destruct (_ || _); [done|].
  unfold bind, query_whois_api, try_except, bind, client_get.
  fold (request_for query api_key is_ip). fold r.
  destruct (upstream W (sent s) r) as [e|[code body]]; simpl; [done|].
  unfold parse_for, http_failure. by destruct (code =? 200)%Z, is_ip.
Qed.

(** A lookup reads the requests sent and the clock, and nothing else of the
    state. *)
Lemma lookup_whois_frame (W : World) (query : string) (service_key : option string)
    (s1 s2 : state) :
  same_net s1 s2 ->
  exists o s1' s2',
    lookup_whois W query service_key s1 = (inr o, s1')
    /\ lookup_whois W query service_key s2 = (inr o, s2')
    /\ same_net s1' s2' /\ quiet s1 s1' /\ quiet s2 s2'.
Proof.
  intros [Hsent Hclock]. rewrite !lookup_whois_unfold. destruct (unusable _).
  - by eexists _, _, _.
  - rewrite Hsent, Hclock. eexists _, _, _. split; [reflexivity|].
    split; [reflexivity|]. unfold same_net, quiet, after_lookup. simpl.
    by rewrite Hsent, Hclock.
Qed.

Lemma lookups_frame (W : World) (items : list string) (s1 s2 : state) :
  same_net s1 s2 ->
  exists os s1' s2',
    lookups W items s1 = (inr os, s1')
    /\ lookups W items s2 = (inr os, s2')
    /\ length os = length items
    /\ same_net s1' s2' /\ quiet s1 s1' /\ quiet s2 s2'.
Proof.
  revert s1 s2. induction items as [|item items IH]; intros s1 s2 Hnet.
  - by exists [], s1, s2.
  - destruct (lookup_whois_frame W item None s1 s2 Hnet)
      as (o & s1a & s2a & H1 & H2 & Hnet' & Hq1 & Hq2).
    destruct (IH s1a s2a Hnet') as (os & s1b & s2b & H1b & H2b & Hlen & Hnet'' & Hq1b & Hq2b).
    exists (o :: os), s1b, s2b. unfold lookups in *. cbn [mapM].
    rewrite (bind_returned _ _ _ _ _ H1), (bind_returned _ _ _ _ _ H1b).
    rewrite (bind_returned _ _ _ _ _ H2), (bind_returned _ _ _ _ _ H2b).
    split; [done|]. split; [done|]. split; [simpl; by rewrite Hlen|].
    split; [done|]. unfold quiet in *. split; intuition congruence.
Qed.


(** Gathering the lookups of a batch gives their outcomes, none of them an
    exception. *)
Lemma gather_lookups (W : World) (batch : list string) (s s' : state)
    (os : list outcome) :
  lookups W batch s = (inr os, s') ->
  mapM (fun item => as_value (lookup_whois W item None)) batch s
  = (inr (inr <$> os), s').
Proof.
  revert s os. unfold lookups.
  induction batch as [|item batch IH]; intros s os Hos.
  - simpl in Hos. by injection Hos as <- <-.
  - cbn [mapM] in *.
    destruct (lookup_whois_returns W item None s) as (o & sa & Ho).
    rewrite (bind_returned _ _ _ _ _ Ho) in Hos.
    destruct (lookups_frame W batch sa sa (conj eq_refl eq_refl))
      as (os' & sb & _ & Hos' & _).
    unfold lookups in Hos'.
    rewrite (bind_returned _ _ _ _ _ Hos') in Hos. injection Hos as <- <-.
    assert (as_value (lookup_whois W item None) s = (inr (inr o), sa)) as Hv.
    { unfold as_value. by rewrite Ho. }
    rewrite (bind_returned _ _ _ _ _ Hv).
    rewrite (bind_returned _ _ _ _ _ (IH _ _ Hos')). done.
Qed.



Lemma same_net_sym (s1 s2 : state) : same_net s1 s2 -> same_net s2 s1.
Proof. unfold same_net. intuition congruence. Qed.

(** *** One batch *)

Lemma mapM_returns {A B} (f : A -> M B) (l : list A) :
  (forall x s, exists y s', f x s = (inr y, s')) ->
  forall s, exists ys s', mapM f l s = (inr ys, s') /\ length ys = length l.
Proof.
  intros Hf. induction l as [|x l IH]; intros s; simpl.
  - by exists [], s.
  - destruct (Hf x s) as (y & s1 & Hy).
    destruct (IH s1) as (ys & s2 & Hys & Hlen).
    exists (y :: ys), s2. unfold bind. rewrite Hy, Hys. simpl.
    split; [done|lia].
Qed.

Lemma as_value_returns {A} (m : M A) (s : state) :
  exists y s', as_value m s = (inr y, s').
Proof. unfold as_value. destruct (m s) as [[e|a] s']; by eexists _, _. Qed.

(** [process_batch] hands back one result per item and never raises. *)
Lemma process_batch_returns (W : World) (batch : list string) (s : state) :
  exists batch_results s',
    process_batch W batch s = (inr batch_results, s')
    /\ length batch_results = length batch.
Proof.
  apply mapM_returns. intros item s0. apply as_value_returns.
Qed.

(** Each result goes to exactly one of the two lists. *)
Lemma classify_counts (t : tally) (result : exn + outcome) :
  counted (classify t result) = S (counted t)
  /\ processed (classify t result) = processed t.
Proof.
  unfold counted, classify. destruct result as [e|r]; simpl.
  - rewrite length_app. simpl. lia.
  - case_bool_decide; simpl; rewrite length_app; simpl; lia.
Qed.

Lemma foldl_classify_counts (batch_results : list (exn + outcome)) (t : tally) :
  counted (foldl classify t batch_results) = counted t + length batch_results.
Proof.
  revert t. induction batch_results as [|r rs IH]; intros t; simpl; [lia|].
  rewrite IH. destruct (classify_counts t r) as [-> _]. lia.
Qed.

(** [process_batch] puts its batch on record and gives the outcomes of the
    lookups of its items; it does not sleep, print or write. *)
Lemma process_batch_run (W : World) (batch : list string) (s : state) :
  exists os s1 s',
    lookups W batch s = (inr os, s1)
    /\ length os = length batch
    /\ process_batch W batch s = (inr (inr <$> os), s')
    /\ same_net s' s1
    /\ sleeps s' = sleeps s /\ printed s' = printed s /\ files s' = files s
    /\ dispatched s' = dispatched s ++ [batch].
Proof.
  set (s0 := State (sent s) (clock_reads s) (sleeps s) (printed s) (files s)
                   (dispatched s ++ [batch])).
  destruct (lookups_frame W batch s s0 (conj eq_refl eq_refl))
    as (os & s1 & s' & Hos & Hos0 & Hlen & Hnet & _ & (Hsl & Hpr & Hfi & Hdi)).
  exists os, s1, s'. split; [done|]. split; [done|]. split.
  - unfold process_batch.
    rewrite (bind_returned (called_with batch) _ s s0 tt eq_refl).
    by apply gather_lookups.
  - split; [by apply same_net_sym|]. done.
Qed.

(** One turn of the loop up to the sleep: the batch is looked up and
    classified, and the progress line is printed or not, or its printing
    raises. *)
Lemma do_batch_run (W : World) (items : list string) (batch_size total_items : Z)
    (t : tally) (i : Z) (s : state) :
  exists os s1 s2,
    lookups W (slice items i (i + batch_size)) s = (inr os, s1)
    /\ length os = length (slice items i (i + batch_size))
    /\ same_net s2 s1
    /\ sleeps s2 = sleeps s /\ printed s2 = printed s /\ files s2 = files s
    /\ dispatched s2 = dispatched s ++ [slice items i (i + batch_size)]
    /\ do_batch W items batch_size total_items t i s
       = let t1 := foldl classify t (inr <$> os) in
         let t2 := Tally (results t1) (errors t1)
                         (processed t1 + Z.of_nat (length os)) in
         if (processed t2 mod (batch_size * 10) =? 0)%Z
         then match print_error W (printed s2) (processed t2, total_items) with
              | Some e => (inl e, s2)
              | None => (inr t2, with_line (processed t2, total_items) s2)
              end
         else (inr t2, s2).
Proof.
  destruct (process_batch_run W (slice items i (i + batch_size)) s)
    as (os & s1 & s2 & Hos & Hlen & Hrun & Hnet & Hsl & Hpr & Hfi & Hdi).
  exists os, s1, s2. do 7 (split; [done|]).
  unfold do_batch. rewrite (bind_returned _ _ _ _ _ Hrun). cbv zeta.
  rewrite Hlen.
  match goal with
  | |- context [if ?c then _ else _] => destruct c
  end; [|done].
  unfold bind, print_progress. by destruct (print_error _ _ _).
Qed.

Lemma do_batch_counts (W : World) (items : list string) (batch_size total_items : Z)
    (t t' : tally) (i : Z) (s s' : state) :
  do_batch W items batch_size total_items t i s = (inr t', s') ->
  counted t' = counted t + length (slice items i (i + batch_size)).
Proof.
  destruct (do_batch_run W items batch_size total_items t i s)
    as (os & s1 & s2 & _ & Hlen & _ & _ & _ & _ & _ & ->).
  cbv zeta.
  pose proof (foldl_classify_counts (inr <$> os) t) as Hcount.
  rewrite length_fmap, Hlen in Hcount.
  destruct (_ =? 0)%Z; [destruct (print_error _ _ _)|];
    intros Heq; try discriminate; injection Heq as <- <-; exact Hcount.
Qed.



(** *** The loop *)

(** A turn of the loop: the batch, then the sleep. *)
Lemma batch_then_sleep_run (W : World) (items : list string)
    (batch_size total_items : Z) (delay : delay_value) (t : tally) (i : Z) (s : state) :
  batch_then_sleep W items batch_size total_items delay t i s
  = match do_batch W items batch_size total_items t i s with
    | (inl e, s1) => (Returned (inl e), s1)
    | (inr t', s1) =>
        match sleep_ends W delay with
        | Wakes => (Returned (inr t'), slept s1)
        | WakeRaises e => (Returned (inl e), s1)
        | NeverWakes => (Pending, s1)
        end
    end.
Proof.
  unfold batch_then_sleep, bindT, lift, asyncio_sleep.
  destruct (do_batch W items batch_size total_items t i s) as [[e|t'] s1];
    [done|]. cbn [fst snd]. by destruct (sleep_ends W delay).
Qed.

Lemma batches_counted (W : World) (items : list string) (batch_size total_items : Z)
    (delay : delay_value) (starts : list Z) (t t' : tally) (s s' : state) :
  foldT (batch_then_sleep W items batch_size total_items delay) t starts s
  = (Returned (inr t'), s') ->
  counted t'
  = counted t + length (concat ((fun i => slice items i (i + batch_size)) <$> starts)).
Proof.
  revert t s. induction starts as [|i starts IH]; intros t s.
  - intros Heq. injection Heq as <- <-. simpl. lia.
  - cbn [foldT]. unfold bindT at 1. rewrite batch_then_sleep_run.
    destruct (do_batch W items batch_size total_items t i s) as [[e|t1] s1] eqn:Hstep;
      [done|].
    destruct (sleep_ends W delay); [|done|done].
    intros Hrest. rewrite (IH _ _ Hrest), (do_batch_counts _ _ _ _ _ _ _ _ _ Hstep).
    rewrite fmap_cons, concat_cons, length_app. lia.
Qed.



(** *** The progress lines *)

Lemma processed_foldl_classify (batch_results : list (exn + outcome)) (t : tally) :
  processed (foldl classify t batch_results) = processed t.
Proof.
  revert t. induction batch_results as [|r rs IH]; intros t; simpl; [done|].
  rewrite IH. by destruct (classify_counts t r) as [_ ->].
Qed.





(** [bulk_whois_lookup] for a batch size of at least 1: the loop over the
    starts of [range], and then the summary, the error result or nothing. *)
Lemma bulk_whois_lookup_run (W : World) (items : list string) (batch_size : Z)
    (delay : delay_value) (s : state) :
  (1 <= batch_size)%Z ->
  exists starts,
    range 0 (Z.of_nat (length items)) batch_size = inr starts
    /\ starts = (fun k : nat => (Z.of_nat k * batch_size)%Z)
                  <$> seq 0 (batch_count (length items) batch_size)
    /\ length starts = batch_count (length items) batch_size
    /\ concat ((fun i => slice items i (i + batch_size)) <$> starts) = items
    /\ bulk_whois_lookup W items batch_size delay s
       = match foldT (batch_then_sleep W items batch_size (Z.of_nat (length items))
                                       delay)
                     (Tally [] [] 0) starts s with
         | (Returned (inr t), s') =>
             (Returned (inr (Completed (length items) (length (results t))
                                       (length (errors t)) (results t))), s')
         | (Returned (inl e), s') =>
             (Returned (inr (BulkError ("대량 분석 중 오류: " +:+ exn_str e))), s')
         | (Pending, s') => (Pending, s')
         end.
Proof.
  intros Hb. destruct (batches_cover items batch_size Hb) as (starts & Hrange & Hcat).
  exists starts. split; [done|].
  assert (starts = (fun k : nat => (Z.of_nat k * batch_size)%Z)
                     <$> seq 0 (batch_count (length items) batch_size)) as Hstarts.
  { rewrite (range_forward _ _ Hb) in Hrange. by injection Hrange as <-. }
  split; [done|]. split.
  { by rewrite Hstarts, length_fmap, length_seq. }
  split; [done|].
  unfold bulk_whois_lookup, try_exceptT, bindT. cbv zeta. rewrite Hrange.
  by destruct (foldT _ _ _ _) as [[[e|t]|] s'].
Qed.



(** C4 (as the code has it). For every item list and every batch size of
    at least 1, the summary that [bulk_whois_lookup] returns when it completes
    reports the length of the list as [total_items], and its counters add up
    to it: every result of every batch went to the successes or to the
    failures, once. *)
Theorem bulk_counts_add_up (W : World) (items : list string) (batch_size : Z)
    (delay : delay_value) (s s' : state) (total_items successful failed : nat)
    (found : list outcome) :
  (1 <= batch_size)%Z ->
  bulk_whois_lookup W items batch_size delay s
  = (Returned (inr (Completed total_items successful failed found)), s') ->
  total_items = length items
  /\ successful + failed = total_items
  /\ successful = length found.
Proof.
  intros Hb Hrun.
  destruct (bulk_whois_lookup_run W items batch_size delay s Hb)
    as (starts & _ & _ & _ & Hcat & Heq).
  rewrite Heq in Hrun. clear Heq.
  destruct (foldT _ _ _ _) as [[[e|t]|] s0] eqn:Hloop; try discriminate.
  injection Hrun as <- <- <- <- <-.
  apply batches_counted in Hloop. rewrite Hcat in Hloop.
  unfold counted in Hloop. simpl in Hloop. split; [done|]. split; [lia|done].
Qed.

Lemma bulk_counts_add_up_witness :
  bulk_whois_lookup serving_world ["example.kr"; "missing.kr"; "slow.kr"] 2
                    (Finite 1 (-3)) initial
  = (Returned (inr (Completed 3 1 2 [success_outcome])),
     (sample_run ["example.kr"; "missing.kr"; "slow.kr"] 2).2)
  /\ 3 = length ["example.kr"; "missing.kr"; "slow.kr"]
  /\ 1 + 2 = 3
  /\ 1 = length [success_outcome].
Proof.
  assert (bulk_whois_lookup serving_world ["example.kr"; "missing.kr"; "slow.kr"] 2
                            (Finite 1 (-3)) initial
          = (Returned (inr (Completed 3 1 2 [success_outcome])),
             (sample_run ["example.kr"; "missing.kr"; "slow.kr"] 2).2)) as Hrun.
  { unfold sample_run. by vm_compute. }
  split; [exact Hrun|].
  apply (bulk_counts_add_up serving_world ["example.kr"; "missing.kr"; "slow.kr"] 2
           (Finite 1 (-3)) initial
           (sample_run ["example.kr"; "missing.kr"; "slow.kr"] 2).2
           3 1 2 [success_outcome]); [lia | exact Hrun].
Defined.

(** C4 as stated fails: with a negative batch size the loop has no
    iteration, and [bulk_whois_lookup] completes with both counters at 0 for a
    list of one item. *)
Lemma bulk_negative_batch_size_counts_nothing :
  bulk_whois_lookup sample_world ["example.kr"] (-1) (Finite 1 (-3)) initial
  = (Returned (inr (Completed 1 0 0 [])), initial)
  /\ 0 + 0 ≠ 1.
Proof. split; [reflexivity|lia]. Qed.

(** A batch size of 0 does not complete: [range] raises and the handler
    returns the error result. *)
Lemma bulk_zero_batch_size (W : World) (items : list string) (delay : delay_value)
    (s : state) :
  bulk_whois_lookup W items 0 delay s
  = (Returned (inr (BulkError "대량 분석 중 오류: range() arg 3 must not be zero")), s).
Proof. reflexivity. Qed.

(** ** The CSV exporter *)

Lemma elem_of_collect_headers (res : list outcome) (k : string) :
  k ∈ collect_headers res
  <-> exists result,
        result ∈ res /\ is_success result = true
        /\ k ∈ dom (default (∅ : record) (o_data result)).
Proof.
  unfold collect_headers.
  induction res as [|r res IH] using rev_ind.
  - simpl. split; [set_solver|]. intros (r & Hr & _). by apply elem_of_nil in Hr.
  - rewrite foldl_app. simpl. destruct (is_success r) eqn:Hs.
    + rewrite elem_of_union, IH. split.
      * intros [(r' & Hin & Hs' & Hk) | Hk].
        -- exists r'. rewrite elem_of_app. by auto.
        -- exists r. rewrite elem_of_app, list_elem_of_singleton. by auto.
      * intros (r' & Hin & Hs' & Hk). apply elem_of_app in Hin as [Hin | Hin].
        -- left. by exists r'.
        -- apply list_elem_of_singleton in Hin as ->. by right.
    + rewrite IH. split.
      * intros (r' & Hin & Hs' & Hk). exists r'. rewrite elem_of_app. by auto.
      * intros (r' & Hin & Hs' & Hk). apply elem_of_app in Hin as [Hin | Hin].
        -- by exists r'.
        -- apply list_elem_of_singleton in Hin as ->. congruence.
Qed.

(** The columns: the three fixed ones, then the keys of the success
    records in ascending order. *)
Lemma csv_headers_sorted (res : list outcome) :
  exists keys,
    csv_headers res = ["query"; "status"; "query_time"] ++ keys
    /\ Sorted String.le keys
    /\ NoDup keys
    /\ (forall k, k ∈ keys <-> k ∈ collect_headers res).
Proof.
  exists (sorted (elements (collect_headers res))). unfold sorted.
  split; [done|]. split; [apply Sorted_merge_sort, _|]. split.
  - rewrite merge_sort_Permutation. apply NoDup_elements.
  - intros k. by rewrite merge_sort_Permutation, elem_of_elements.
Qed.

Lemma columns_of_csv_headers (res : list outcome) :
  list_to_set (csv_headers res)
  = ({["query"; "status"; "query_time"]} ∪ collect_headers res : gset string).
Proof.
  destruct (csv_headers_sorted res) as (keys & -> & _ & _ & Hkeys).
  apply set_eq. intros k. rewrite elem_of_list_to_set, elem_of_app, elem_of_union.
  rewrite Hkeys. set_solver.
Qed.

Lemma dom_make_row (result : outcome) :
  dom (make_row result)
  = if is_success result
    then dom (default (∅ : record) (o_data result)) ∪ {["query"; "status"; "query_time"]}
    else if bool_decide (failed_outcome result)
         then {["query"; "status"; "query_time"; "error"]}
         else ({["query"; "status"; "query_time"]} : gset string).
Proof.
  unfold make_row, failed_outcome. destruct (is_success result).
  - rewrite dom_union_L, !dom_insert_L, dom_empty_L. set_solver.
  - case_bool_decide; rewrite !dom_insert_L, dom_empty_L; set_solver.
Qed.

(** A failed outcome is not a success. *)
Lemma failed_not_success (result : outcome) :
  failed_outcome result -> is_success result = false.
Proof.
  unfold failed_outcome, is_success. intros ->.
  by rewrite bool_decide_eq_false_2.
Qed.

(** The row of a failed outcome is refused when no column is named
    [error]. *)
Lemma failed_row_refused (res : list outcome) (result : outcome) :
  failed_outcome result ->
  "error" ∉ collect_headers res ->
  dict_to_list (csv_headers res) (make_row result) = inl error_not_a_column.
Proof.
  intros Hfailed Hnocol. unfold dict_to_list.
  assert (dom (make_row result) ∖ list_to_set (csv_headers res)
          = ({["error"]} : gset string)) as ->.
  { rewrite dom_make_row, (failed_not_success _ Hfailed).
    rewrite bool_decide_eq_true_2 by done.
    rewrite columns_of_csv_headers. set_solver. }
  rewrite bool_decide_eq_false_2 by set_solver.
  by rewrite elements_singleton.
Qed.

(** Every other row of the export is accepted. *)
Lemma other_row_accepted (res : list outcome) (result : outcome) :
  result ∈ res ->
  ¬ failed_outcome result ->
  dict_to_list (csv_headers res) (make_row result)
  = inr (cells (csv_headers res) (make_row result)).
Proof.
  intros Hin Hnot. unfold dict_to_list.
  rewrite bool_decide_eq_true_2; [done|].
  rewrite dom_make_row, columns_of_csv_headers.
  destruct (is_success result) eqn:Hs.
  - assert (dom (default (∅ : record) (o_data result)) ⊆ collect_headers res).
    { intros k Hk. apply elem_of_collect_headers. by exists result. }
    set_solver.
  - rewrite bool_decide_eq_false_2 by done. set_solver.
Qed.

Lemma header_row (fieldnames : list string) :
  dict_to_list fieldnames (list_to_map ((fun f => (f, VStr f)) <$> fieldnames))
  = inr (VStr <$> fieldnames).
Proof.
  unfold dict_to_list.
  rewrite dom_list_to_map_L, <- list_fmap_compose.
  rewrite (list_fmap_ext (fst ∘ (fun f => (f, VStr f))) id fieldnames) by done.
  rewrite list_fmap_id.
  rewrite bool_decide_eq_true_2 by set_solver.
  f_equal. apply list_fmap_ext. intros i key Hkey.
  apply list_elem_of_lookup_2 in Hkey. clear i.
  induction fieldnames as [|f fieldnames IH]; [by apply elem_of_nil in Hkey|].
  simpl. destruct (decide (f = key)) as [-> | Hne].
  - by rewrite lookup_insert_eq.
  - rewrite lookup_insert_ne by done. apply IH.
    apply elem_of_cons in Hkey as [-> | Hkey]; done.
Qed.

(** *** Steps of the monad and of the writer *)

Lemma open_write_opened (W : World) (path : string) (s : state) :
  open_w W path = None ->
  open_write W path s = (inr tt, written path [] s).
Proof. unfold open_write. by intros ->. Qed.

Lemma append_row_written (W : World) (path : string) (cs : list value)
    (content : rows) (s : state) :
  write_error W path content cs = None ->
  append_row W path cs (written path content s)
  = (inr tt, written path (content ++ [cs]) s).
Proof.
  intros Hw. unfold append_row, written. simpl. rewrite lookup_insert_eq. simpl.
  rewrite Hw. by rewrite insert_insert_eq.
Qed.

Lemma append_row_raised (W : World) (path : string) (cs : list value)
    (content : rows) (s : state) (e : exn) :
  write_error W path content cs = Some e ->
  append_row W path cs (written path content s) = (inl e, written path content s).
Proof.
  intros Hw. unfold append_row, written. simpl. rewrite lookup_insert_eq. simpl.
  by rewrite Hw.
Qed.

Lemma writerow_accepted (W : World) (path : string) (fieldnames : list string)
    (rowdict : record) (cs : list value) (content : rows) (s : state) :
  write_error W path content cs = None ->
  dict_to_list fieldnames rowdict = inr cs ->
  writerow W path fieldnames rowdict (written path content s)
  = (inr tt, written path (content ++ [cs]) s).
Proof. unfold writerow. intros Hw ->. by apply append_row_written. Qed.

Lemma writerow_refused (W : World) (path : string) (fieldnames : list string)
    (rowdict : record) (e : exn) (s : state) :
  dict_to_list fieldnames rowdict = inl e ->
  writerow W path fieldnames rowdict s = (inl e, s).
Proof. unfold writerow. by intros ->. Qed.

Lemma writeheader_written (W : World) (path : string) (fieldnames : list string)
    (content : rows) (s : state) :
  write_error W path content (VStr <$> fieldnames) = None ->
  writeheader W path fieldnames (written path content s)
  = (inr tt, written path (content ++ [VStr <$> fieldnames]) s).
Proof. intros Hw. unfold writeheader. by apply writerow_accepted, header_row. Qed.

(** A [with] block on a file that opens and closes: the block gives what
    its body gives. *)
Lemma with_open_run (W : World) (path : string) {A} (body : M A) (s s' : state)
    (r : exn + A) (content : rows) :
  open_w W path = None ->
  body (written path [] s) = (r, s') ->
  files s' !! path = Some content ->
  close_error W path content = None ->
  with_open W path body s = (r, s').
Proof.
  intros Hopen Hbody Hfile Hclose. unfold with_open.
  rewrite (bind_returned _ _ _ _ _ (open_write_opened W path s Hopen)).
  rewrite Hbody. cbn [fst snd]. unfold close. rewrite Hfile. simpl.
  by rewrite Hclose.
Qed.

(** A [with] block on a file that does not open: its body is not run. *)
Lemma with_open_refused (W : World) (path : string) {A} (body : M A) (s : state)
    (e : exn) :
  open_w W path = Some e ->
  with_open W path body s = (inl e, s).
Proof.
  intros Hopen. unfold with_open. apply bind_raised.
  unfold open_write. by rewrite Hopen.
Qed.

(** A [with] block whose closing raises gives that exception, whatever its
    body gave. *)
Lemma with_open_close_raised (W : World) (path : string) {A} (body : M A)
    (s s' : state) (r : exn + A) (content : rows) (e : exn) :
  open_w W path = None ->
  body (written path [] s) = (r, s') ->
  files s' !! path = Some content ->
  close_error W path content = Some e ->
  with_open W path body s = (inl e, s').
Proof.
  intros Hopen Hbody Hfile Hclose. unfold with_open.
  rewrite (bind_returned _ _ _ _ _ (open_write_opened W path s Hopen)).
  rewrite Hbody. cbn [fst snd]. unfold close. rewrite Hfile. simpl.
  by rewrite Hclose.
Qed.

(** The second loop over rows that are all accepted and written appends
    their cells. *)
Lemma rows_written (W : World) (path : string) (fieldnames : list string)
    (res : list outcome) (content : rows) (s : state) :
  (forall content cs, write_error W path content cs = None) ->
  Forall (fun result =>
            dict_to_list fieldnames (make_row result)
            = inr (cells fieldnames (make_row result))) res ->
  foldM (fun _ result => writerow W path fieldnames (make_row result)) tt res
        (written path content s)
  = (inr tt,
     written path (content ++ (cells fieldnames ∘ make_row <$> res)) s).
Proof.
  intros Hw. revert content. induction res as [|r res IH]; intros content Hall.
  - simpl. by rewrite app_nil_r.
  - apply Forall_cons in Hall as [Hr Hall]. cbn [foldM].
    rewrite (bind_returned _ _ _ _ _
               (writerow_accepted W _ _ _ _ content s (Hw _ _) Hr)).
    rewrite (IH _ Hall). by rewrite <- app_assoc.
Qed.

(** The second loop stops with the exception of the first refused row. *)
Lemma rows_refused (W : World) (path : string) (fieldnames : list string)
    (res : list outcome) (e : exn) (content : rows) (s : state) :
  (forall content cs, write_error W path content cs = None) ->
  Forall (fun result =>
            dict_to_list fieldnames (make_row result)
            = inr (cells fieldnames (make_row result))
            \/ dict_to_list fieldnames (make_row result) = inl e) res ->
  Exists (fun result => dict_to_list fieldnames (make_row result) = inl e) res ->
  exists content',
    foldM (fun _ result => writerow W path fieldnames (make_row result)) tt res
          (written path content s)
    = (inl e, written path content' s).
Proof.
  intros Hw. revert content. induction res as [|r res IH]; intros content Hall Hex.
  - by apply Exists_nil in Hex.
  - apply Forall_cons in Hall as [Hr Hall]. cbn [foldM].
    destruct Hr as [Hr | Hr].
    + apply Exists_cons in Hex as [Hex | Hex]; [congruence|].
      rewrite (bind_returned _ _ _ _ _
                 (writerow_accepted W _ _ _ _ content s (Hw _ _) Hr)).
      by apply IH.
    + exists content. apply bind_raised. by apply writerow_refused.
Qed.

(** Without failed outcomes, and with a file that opens, takes every write
    and closes, the export succeeds: the file holds the header row and one
    row per outcome, each row made of the cells of its own outcome, with the
    empty string where the outcome has no value for a column. *)
Lemma save_results_to_csv_all_accepted (W : World) (res : list outcome)
    (output_file : string) (s : state) :
  res ≠ [] ->
  open_w W output_file = None ->
  writes_through W output_file ->
  Forall (fun result => ¬ failed_outcome result) res ->
  save_results_to_csv W res output_file s
  = (inr (Saved output_file (length res)
                (pretty (length res) +:+ "개 결과를 " +:+ output_file
                 +:+ "에 저장했습니다.")),
     written output_file
             ((VStr <$> csv_headers res)
              :: (cells (csv_headers res) ∘ make_row <$> res)) s).
Proof.
  intros Hne Hopen [Hw Hc] Hall. unfold save_results_to_csv, try_except.
  destruct res as [|r0 res0] eqn:Hres; [done|]. rewrite <- Hres in *.
  erewrite bind_returned; [reflexivity|].
  eapply with_open_run; [done| |by apply lookup_insert_eq|by apply Hc].
  rewrite (bind_returned _ _ _ _ _ (writeheader_written W _ _ _ _ (Hw _ _))).
  rewrite rows_written; [done|done|].
  apply Forall_forall. intros r Hr. apply other_row_accepted; [done|].
  by apply (proj1 (Forall_forall _ _) Hall).
Qed.

(** With a failed outcome among the results, no success record with an
    [error] field, and a file that opens, takes every write and closes, the
    export stops at the first failed outcome and returns the error result;
    the rows before it stay written. *)
Lemma save_results_to_csv_refuses_failures (W : World) (res : list outcome)
    (output_file : string) (s : state) :
  open_w W output_file = None ->
  writes_through W output_file ->
  Exists failed_outcome res ->
  "error" ∉ collect_headers res ->
  exists content,
    save_results_to_csv W res output_file s
    = (inr (SaveError "CSV 저장 중 오류: dict contains fields not in fieldnames: 'error'"),
       written output_file content s).
Proof.
  intros Hopen [Hw Hc] Hex Hnocol. unfold save_results_to_csv, try_except.
  destruct res as [|r0 res0] eqn:Hres; [by apply Exists_nil in Hex|].
  rewrite <- Hres in *.
  destruct (rows_refused W output_file (csv_headers res) res error_not_a_column
              ([] ++ [VStr <$> csv_headers res]) s Hw) as [content Hrows].
  - apply Forall_forall. intros r Hr.
    destruct (decide (failed_outcome r)) as [Hf | Hf].
    + right. by apply failed_row_refused.
    + left. by apply other_row_accepted.
  - apply Exists_exists in Hex as (r & Hr & Hf). apply Exists_exists.
    exists r. split; [done|]. by apply failed_row_refused.
  - exists content.
    rewrite (bind_raised _ _ s (written output_file content s) error_not_a_column);
      [done|].
    eapply with_open_run; [done| |by apply lookup_insert_eq|by apply Hc].
    rewrite (bind_returned _ _ _ _ _ (writeheader_written W _ _ _ _ (Hw _ _))).
    exact Hrows.
Qed.

(** C1 at a result list with one failed outcome, the one [lookup_whois]
    returns for a missing key, and a file that opens: the export does not
    succeed. The header is written, the row of the outcome is refused because
    [error] is not a column, and the error result is returned. The same
    happens after a success has been written. *)
Theorem save_results_to_csv_fails_on_failure_outcome :
  save_results_to_csv sample_world [failure_outcome] "out.csv" initial
  = (inr (SaveError "CSV 저장 중 오류: dict contains fields not in fieldnames: 'error'"),
     written "out.csv" [[VStr "query"; VStr "status"; VStr "query_time"]] initial)
  /\ fst (save_results_to_csv sample_world [success_outcome; failure_outcome]
            "out.csv" initial)
     = inr (SaveError "CSV 저장 중 오류: dict contains fields not in fieldnames: 'error'").
Proof. split; by vm_compute. Qed.

(** * Further properties *)

(** ** The record normalizers, beyond the record node *)

Lemma findall_child (elem : Element) (name : string) :
  tokenize name = [Child name] ->
  findall elem name = children_named elem name.
Proof.
  unfold findall, iterfind_steps, children_named. intros ->. simpl.
  by rewrite app_nil_r.
Qed.

Lemma find_first_child (elem : Element) (name : string) :
  tokenize name = [Child name] ->
  find elem name = first_child elem name.
Proof. intros Htok. unfold find, first_child. by rewrite findall_child. Qed.

(** X1. The IP parser fails in two ways only: on input that is not
    well-formed it answers with the XML-parse failure, on a well-formed
    document without a [./whois] node with the node-not-found failure, both
    carrying the query passed in; on a well-formed document its answer is an
    error exactly when that node is missing. *)
Theorem parse_ip_failure_kinds
    (fromstring : string -> fromstring_result) (xml_content query : string) :
  (forall root,
      fromstring xml_content = Root root ->
      find root "./whois" = None ->
      parse_ip_whois_xml fromstring xml_content query = schema_mismatch "whois" query)
  /\ (forall e,
      fromstring xml_content = ParseError e ->
      parse_ip_whois_xml fromstring xml_content query = malformed e query)
  /\ (forall root,
      fromstring xml_content = Root root ->
      is_error (parse_ip_whois_xml fromstring xml_content query)
      <-> find root "./whois" = None).
Proof.
  split; [|split].
  - intros root Hroot Hnone. unfold parse_ip_whois_xml. by rewrite Hroot, Hnone.
  - intros e He. unfold parse_ip_whois_xml. by rewrite He.
  - intros root Hroot. split.
    + intros Herr. destruct (find root "./whois") as [w|] eqn:Hfind; [|done].
      destruct (ip_found fromstring xml_content query root w Hroot Hfind) as [Hok _].
      unfold is_error in Herr. rewrite Hok in Herr. by destruct Herr.
    + intros Hnone. unfold parse_ip_whois_xml, is_error. rewrite Hroot, Hnone.
      by simplify_map_eq.
Qed.

Lemma parse_ip_failure_kinds_witness :
  parse_ip_whois_xml sample_fromstring no_record_xml "8.8.8.8"
  = schema_mismatch "whois" "8.8.8.8"
  /\ parse_ip_whois_xml sample_fromstring "<response>" "8.8.8.8"
     = malformed "no element found: line 1, column 10" "8.8.8.8"
  /\ (is_error (parse_ip_whois_xml sample_fromstring ip_xml "8.8.8.8")
      <-> find ip_doc "./whois" = None).
Proof.
  split; [|split].
  - apply (proj1 (parse_ip_failure_kinds sample_fromstring no_record_xml "8.8.8.8")
             no_record_doc); reflexivity.
  - apply (proj1 (proj2 (parse_ip_failure_kinds sample_fromstring "<response>"
                           "8.8.8.8"))); reflexivity.
  - apply (proj2 (proj2 (parse_ip_failure_kinds sample_fromstring ip_xml "8.8.8.8")));
      reflexivity.
Defined.

(** X2. Every success record of the domain parser has the same 22 keys,
    whatever the document holds: [query], the 18 scalar fields and the three
    repeating fields. *)
Theorem domain_record_keys
    (fromstring : string -> fromstring_result) (xml_content query : string)
    (root krdomain : Element) :
  fromstring xml_content = Root root ->
  find root "./whois/krdomain" = Some krdomain ->
  dom (parse_domain_whois_xml fromstring xml_content query) = domain_keys
  /\ size (dom (parse_domain_whois_xml fromstring xml_content query)) = 22.
Proof.
  intros Hroot Hfind. unfold parse_domain_whois_xml. rewrite Hroot, Hfind.
  split.
  - rewrite !dom_insert_L, dom_empty_L.
    unfold domain_keys, scalar_fields, list_fields. simpl. set_solver.
  - rewrite size_dom. repeat (rewrite map_size_insert_None; [|by simplify_map_eq]).
    by rewrite map_size_empty.
Qed.

Lemma domain_record_keys_witness :
  dom (parse_domain_whois_xml sample_fromstring domain_xml "example.kr") = domain_keys
  /\ size (dom (parse_domain_whois_xml sample_fromstring domain_xml "example.kr")) = 22.
Proof.
  apply (domain_record_keys sample_fromstring domain_xml "example.kr" domain_doc
           domain_krdomain); reflexivity.
Defined.

Lemma tokenize_field (f : string) :
  f ∈ scalar_fields ++ list_fields ++ ip_scalar_fields -> tokenize f = [Child f].
Proof.
  unfold scalar_fields, list_fields, ip_scalar_fields. simpl. intros Hf.
  repeat (apply elem_of_cons in Hf as [-> | Hf]; [reflexivity|]).
  by apply elem_of_nil in Hf.
Qed.

(** X3. In a success record of the domain parser a scalar field holds
    the text of the first child of the record node with that tag ([None] when
    there is none, or when it has no text), and a repeating field holds the
    texts of all children with that tag, in document order. *)
Theorem domain_record_values
    (fromstring : string -> fromstring_result) (xml_content query : string)
    (root krdomain : Element) :
  fromstring xml_content = Root root ->
  find root "./whois/krdomain" = Some krdomain ->
  let r := parse_domain_whois_xml fromstring xml_content query in
  (forall f, f ∈ scalar_fields ->
     r !! f = Some (of_text (first_child krdomain f ≫= text)))
  /\ (forall f, f ∈ list_fields ->
        r !! f = Some (VList (text <$> children_named krdomain f))).
Proof.
  intros Hroot Hfind r.
  destruct (domain_found fromstring xml_content query root krdomain Hroot Hfind)
    as (_ & Hscalar & Hlist).
  unfold r. split; intros f Hf.
  - rewrite (Hscalar f Hf). unfold get_xml_text.
    rewrite find_first_child; [by destruct (first_child krdomain f)|].
    apply tokenize_field. rewrite elem_of_app. by left.
  - rewrite (Hlist f Hf). unfold texts.
    rewrite findall_child; [done|].
    apply tokenize_field. rewrite !elem_of_app. by right; left.
Qed.

Lemma domain_record_values_witness :
  let r := parse_domain_whois_xml sample_fromstring domain_xml "example.kr" in
  (forall f, f ∈ scalar_fields ->
     r !! f = Some (of_text (first_child domain_krdomain f ≫= text)))
  /\ (forall f, f ∈ list_fields ->
        r !! f = Some (VList (text <$> children_named domain_krdomain f))).
Proof.
  apply (domain_record_values sample_fromstring domain_xml "example.kr" domain_doc
           domain_krdomain); reflexivity.
Defined.

Lemma flatten_scalar (prefix : string) (elems : list Element) (result : record) :
  map_Forall (fun _ v => scalar v) result ->
  map_Forall (fun _ v => scalar v) (flatten prefix elems result).
Proof.
  intros Hres. induction elems as [|child elems IH] using rev_ind; [done|].
  rewrite flatten_snoc. apply map_Forall_insert_2; [|done].
  by destruct (text child).
Qed.

(** X4. An IP record of a document with a [whois] node has the four
    top-level keys and one compound key per child present in each of the
    eight blocks, and nothing else; none of its values is a list. *)
Theorem ip_record_shape
    (fromstring : string -> fromstring_result) (xml_content query : string)
    (root whois_elem : Element) :
  fromstring xml_content = Root root ->
  find root "./whois" = Some whois_elem ->
  let r := parse_ip_whois_xml fromstring xml_content query in
  (forall k,
     k ∈ dom r
     <-> k ∈ ip_scalar_fields
         \/ exists prefix path child,
              (prefix, path) ∈ net_blocks ++ contact_blocks
              /\ child ∈ findall whois_elem path
              /\ k = prefix +:+ tag child)
  /\ (forall k v, r !! k = Some v -> scalar v).
Proof.
  intros Hroot Hfind r. split.
  - intros k. unfold r.
    rewrite (dom_ip_record fromstring xml_content query root whois_elem Hroot Hfind).
    unfold compound_keys, ip_base_keys, ip_scalar_fields, net_blocks, contact_blocks.
    rewrite !elem_of_union, !elem_of_list_to_set, !list_elem_of_fmap,
      !elem_of_singleton, !elem_of_cons, elem_of_nil.
    split.
    + intros [[[[[[[[Hbase | (c & -> & Hc)] | (c & -> & Hc)] | (c & -> & Hc)]
                   | (c & -> & Hc)] | (c & -> & Hc)] | (c & -> & Hc)]
               | (c & -> & Hc)] | (c & -> & Hc)];
        [left; tauto | right; do 3 eexists; split;
                       [|split; [exact Hc|reflexivity]]; simpl;
                       rewrite !elem_of_cons; tauto ..].
    + intros [Hbase | (prefix & path & c & Hblock & Hc & ->)]; [tauto|].
      simpl in Hblock. rewrite !elem_of_cons, elem_of_nil in Hblock.
      destruct Hblock as [Hb|[Hb|[Hb|[Hb|[Hb|[Hb|[Hb|[Hb|[]]]]]]]]];
        injection Hb as -> ->; eauto 12.
  - unfold r, parse_ip_whois_xml. rewrite Hroot, Hfind. cbv zeta.
    apply map_Forall_lookup. repeat apply flatten_scalar.
    repeat (apply map_Forall_insert_2;
            [match goal with
             | |- scalar (of_text ?t) => by destruct t
             end|]).
    apply map_Forall_empty.
Qed.

Lemma ip_record_shape_witness :
  let r := parse_ip_whois_xml sample_fromstring ip_xml "8.8.8.8" in
  (forall k,
     k ∈ dom r
     <-> k ∈ ip_scalar_fields
         \/ exists prefix path child,
              (prefix, path) ∈ net_blocks ++ contact_blocks
              /\ child ∈ findall ip_whois path
              /\ k = prefix +:+ tag child)
  /\ (forall k v, r !! k = Some v -> scalar v).
Proof.
  apply (ip_record_shape sample_fromstring ip_xml "8.8.8.8" ip_doc ip_whois);
    reflexivity.
Defined.

(** X5. A top-level scalar of an IP record comes from the first child of
    the [whois] node with that tag: [None] when there is no such child, the
    empty string when the child has no text, and its text otherwise. *)
Theorem ip_record_scalars
    (fromstring : string -> fromstring_result) (xml_content query : string)
    (root whois_elem : Element) (f : string) :
  fromstring xml_content = Root root ->
  find root "./whois" = Some whois_elem ->
  f ∈ ip_scalar_fields ->
  parse_ip_whois_xml fromstring xml_content query !! f
  = Some (match first_child whois_elem f with
          | None => VNone
          | Some e => VStr (default "" (text e))
          end).
Proof.
  intros Hroot Hfind Hf.
  destruct (ip_found fromstring xml_content query root whois_elem Hroot Hfind)
    as (_ & Hq & Ht & Hr & Hc).
  assert (findtext whois_elem f = (fun e => default "" (text e)) <$> first_child whois_elem f)
    as Htext.
  { unfold findtext. rewrite find_first_child.
    - by destruct (first_child whois_elem f).
    - apply tokenize_field. rewrite !elem_of_app. by right; right. }
  assert (parse_ip_whois_xml fromstring xml_content query !! f
          = Some (of_text (findtext whois_elem f))) as ->.
  { unfold ip_scalar_fields in Hf.
    repeat (apply elem_of_cons in Hf as [-> | Hf]; [done|]).
    by apply elem_of_nil in Hf. }
  rewrite Htext. by destruct (first_child whois_elem f).
Qed.

Lemma ip_record_scalars_witness :
  parse_ip_whois_xml sample_fromstring ip_xml "8.8.8.8" !! "registry"
  = Some (match first_child ip_whois "registry" with
          | None => VNone
          | Some e => VStr (default "" (text e))
          end).
Proof.
  apply (ip_record_scalars sample_fromstring ip_xml "8.8.8.8" ip_doc ip_whois);
    [reflexivity | reflexivity | repeat constructor].
Defined.

(** One flattening loop: the key of a tag holds the text of the last
    child with that tag, and keeps what it held when there is none. *)
Lemma lookup_flatten (prefix : string) (elems : list Element) (result : record)
    (t : string) :
  flatten prefix elems result !! (prefix +:+ t)
  = match last_tagged elems t with
    | Some child => Some (of_text (text child))
    | None => result !! (prefix +:+ t)
    end.
Proof.
  unfold last_tagged.
  induction elems as [|child elems IH] using rev_ind; [done|].
  rewrite flatten_snoc, filter_app.
  destruct (decide (tag child = t)) as [<- | Hne].
  - rewrite lookup_insert_eq, filter_cons_True by done.
    by rewrite filter_nil, last_snoc.
  - rewrite lookup_insert_ne by (intros Heq; by apply (inj _) in Heq).
    rewrite filter_cons_False by done. by rewrite filter_nil, app_nil_r.
Qed.

Lemma contact_key_not_net (prefix t : string) :
  String.prefix "contact_" t = false ->
  forall t', (prefix +:+ "contact_") +:+ t' ≠ prefix +:+ t.
Proof.
  intros Hpre t' Heq.
  assert ((prefix +:+ "contact_") +:+ t' = prefix +:+ ("contact_" +:+ t')) as Hassoc.
  { clear. induction prefix as [|c prefix IH]; [done|].
    change (String c ((prefix +:+ "contact_") +:+ t')
            = String c (prefix +:+ "contact_" +:+ t')).
    by f_equal. }
  rewrite Hassoc in Heq. apply (inj _) in Heq. subst t.
  by rewrite prefix_append in Hpre.
Qed.

(** X6. Where several children of one block have the same tag, the last
    one gives the value. This holds for every tag of a technical-contact
    block, and for the tags of a network-info block that do not start with
    [contact_] (the contact loop of the same subtree, which runs later, writes
    keys of that form). *)
Theorem ip_record_last_child_wins
    (fromstring : string -> fromstring_result) (xml_content query : string)
    (root whois_elem : Element) (prefix path t : string) (child : Element) :
  fromstring xml_content = Root root ->
  find root "./whois" = Some whois_elem ->
  (prefix, path) ∈ contact_blocks
  \/ ((prefix, path) ∈ net_blocks /\ String.prefix "contact_" t = false) ->
  last_tagged (findall whois_elem path) t = Some child ->
  parse_ip_whois_xml fromstring xml_content query !! (prefix +:+ t)
  = Some (of_text (text child)).
Proof.
  intros Hroot Hfind Hblock Hlast. unfold parse_ip_whois_xml.
  rewrite Hroot, Hfind. cbv zeta.
  unfold contact_blocks, net_blocks in Hblock.
  rewrite !elem_of_cons, !elem_of_nil in Hblock.
  destruct Hblock as [[Hb|[Hb|[Hb|[Hb|[]]]]] | [[Hb|[Hb|[Hb|[Hb|[]]]]] Hpre]];
    injection Hb as -> ->;
    repeat first
      [ rewrite lookup_flatten, Hlast; reflexivity
      | rewrite lookup_flatten_other by differ
      | rewrite lookup_flatten_other
          by (apply (contact_key_not_net "korean_ISP_" t Hpre))
      | rewrite lookup_flatten_other
          by (apply (contact_key_not_net "korean_user_" t Hpre))
      | rewrite lookup_flatten_other
          by (apply (contact_key_not_net "english_ISP_" t Hpre))
      | rewrite lookup_flatten_other
          by (apply (contact_key_not_net "english_user_" t Hpre)) ].
Qed.

Lemma ip_record_last_child_wins_witness :
  last_tagged (findall isp_only_whois "./korean/ISP/netInfo/*") "orgName"
  = Some (Elem "orgName" (Some "Korea Telecom") [])
  /\ length (filter (fun e => tag e = "orgName")
                    (findall isp_only_whois "./korean/ISP/netInfo/*")) = 2
  /\ parse_ip_whois_xml sample_fromstring isp_only_xml "8.8.8.8"
       !! ("korean_ISP_" +:+ "orgName")
     = Some (of_text (text (Elem "orgName" (Some "Korea Telecom") []))).
Proof.
  split; [reflexivity|]. split; [reflexivity|].
  apply (ip_record_last_child_wins sample_fromstring isp_only_xml "8.8.8.8"
           isp_only_doc isp_only_whois "korean_ISP_" "./korean/ISP/netInfo/*"
           "orgName");
    [reflexivity | reflexivity | | reflexivity].
  right. split; [repeat constructor | reflexivity].
Defined.

(** ** The single-item fetcher, all paths *)

(** X7. With a usable key, an answer with status 200 and a document that
    the parser accepts, [lookup_whois] returns a success outcome: the original
    query, the parsed record under [data], a timestamp and no [error] field.
    It sends one request, with the key, the query and [answer=xml], to the IP
    endpoint when the query is an IP address and to the domain endpoint
    otherwise, and uses the parser of the same kind. *)
Theorem lookup_whois_success (W : World) (query : string) (service_key : option string)
    (s : state) (body : string) :
  let api_key := or_key service_key (SERVICE_KEY W) in
  let is_ip := is_ip_address W query in
  unusable api_key = false ->
  upstream W (sent s) (request_for query api_key is_ip) = inr (Response 200 body) ->
  ¬ is_error (parse_for W is_ip body query) ->
  lookup_whois W query service_key s
  = (inr (Outcome (Some (VStr query)) (Some (VStr "success"))
                  (Some (parse_for W is_ip body query)) None
                  (Some (VStr (isoformat_now W (clock_reads s))))),
     after_lookup (request_for query api_key is_ip) s).
Proof.
  intros api_key is_ip Hkey Hup Hok.
  rewrite lookup_whois_unfold. fold api_key. fold is_ip. rewrite Hkey, Hup.
  unfold answer_of, outcome_of. cbn [status_code response_text].
  change (200 =? 200)%Z with true. cbv iota.
  rewrite bool_decide_eq_true_2; [done|].
  unfold is_error in Hok.
  destruct (parse_for W is_ip body query !! "error") as [msg|]; [|done].
  exfalso. apply Hok. by exists msg.
Qed.

Lemma lookup_whois_success_witness :
  lookup_whois serving_world "example.kr" None initial
  = (inr (Outcome (Some (VStr "example.kr")) (Some (VStr "success"))
                  (Some (parse_for serving_world false domain_xml "example.kr")) None
                  (Some (VStr "2024-01-01T00:00:00"))),
     after_lookup (request_for "example.kr" "configured-key" false) initial).
Proof.
  apply (lookup_whois_success serving_world "example.kr" None initial domain_xml);
    [reflexivity | reflexivity |].
  change (¬ is_Some (parse_domain_whois_xml sample_fromstring domain_xml "example.kr"
                     !! "error")).
  destruct (domain_found sample_fromstring domain_xml "example.kr" domain_doc
              domain_krdomain eq_refl eq_refl) as [Hok _].
  rewrite Hok. by intros [? ?].
Defined.

(** X8. A transport exception of the GET is caught: [lookup_whois]
    returns an outcome with status [error] whose [data] holds the exception's
    type, message and traceback under [error]; the request is logged and the
    clock read once. *)
Theorem lookup_whois_transport_error (W : World) (query : string)
    (service_key : option string) (s : state) (e : exn) :
  let api_key := or_key service_key (SERVICE_KEY W) in
  let is_ip := is_ip_address W query in
  unusable api_key = false ->
  upstream W (sent s) (request_for query api_key is_ip) = inl e ->
  lookup_whois W query service_key s
  = (inr (Outcome (Some (VStr query)) (Some (VStr "error"))
                  (Some (transport_failure e query)) None
                  (Some (VStr (isoformat_now W (clock_reads s))))),
     after_lookup (request_for query api_key is_ip) s)
  /\ transport_failure e query !! "error"
     = Some (VStr ("API 호출 중 오류: " +:+ exn_type e +:+ ": " +:+ exn_str e
                   +:+ nl +:+ exn_traceback e)).
Proof.
  intros api_key is_ip Hkey Hup.
  assert (transport_failure e query !! "error"
          = Some (VStr ("API 호출 중 오류: " +:+ exn_type e +:+ ": " +:+ exn_str e
                        +:+ nl +:+ exn_traceback e))) as Herr.
  { unfold transport_failure. by simplify_map_eq. }
  split; [|done].
  rewrite lookup_whois_unfold. fold api_key. fold is_ip. rewrite Hkey, Hup.
  unfold answer_of, outcome_of.
  rewrite bool_decide_eq_false_2; [done|]. by rewrite Herr.
Qed.

Lemma lookup_whois_transport_error_witness :
  lookup_whois serving_world "slow.kr" None initial
  = (inr (Outcome (Some (VStr "slow.kr")) (Some (VStr "error"))
                  (Some (transport_failure
                           (Exn "ReadTimeout" "" "Traceback (most recent call last)")
                           "slow.kr")) None
                  (Some (VStr "2024-01-01T00:00:00"))),
     after_lookup (request_for "slow.kr" "configured-key" false) initial)
  /\ transport_failure (Exn "ReadTimeout" "" "Traceback (most recent call last)")
                       "slow.kr" !! "error"
     = Some (VStr ("API 호출 중 오류: " +:+ "ReadTimeout" +:+ ": " +:+ ""
                   +:+ nl +:+ "Traceback (most recent call last)")).
Proof.
  apply (lookup_whois_transport_error serving_world "slow.kr" None initial);
    reflexivity.
Defined.

(** X9. Whatever the world, the query, the key and the state,
    [lookup_whois] returns an outcome and never raises. The outcome carries
    the query it was given; its status is [success] with a record without
    [error] under [data], or [error] with a message either in its own [error]
    field or in the record under [data]. It leaves the state alone or logs
    exactly one request for that query and reads the clock once; it never
    sleeps, prints or touches a file. *)
Theorem lookup_whois_outcome (W : World) (query : string) (service_key : option string)
    (s : state) :
  exists o s',
    lookup_whois W query service_key s = (inr o, s')
    /\ o_query o = Some (VStr query)
    /\ ((succeeded o /\ o_error o = None
         /\ exists d, o_data o = Some d /\ ¬ is_error d)
        \/ (failed_outcome o
            /\ (is_Some (o_error o) \/ exists d, o_data o = Some d /\ is_error d)))
    /\ (s' = s
        \/ exists r, s' = after_lookup r s /\ req_query r = query
                     /\ req_answer r = "xml").
Proof.
  rewrite lookup_whois_unfold. destruct (unusable _).
  - exists (refusal query), s. split; [done|]. split; [done|]. split; [|by left].
    right. split; [done|]. left. by eexists.
  - eexists _, _. split; [reflexivity|]. split; [done|]. split.
    + unfold outcome_of, succeeded, failed_outcome, is_error. simpl.
      match goal with
      | |- context [bool_decide (?d !! "error" = None)] =>
          destruct (d !! "error") as [msg|] eqn:Herr
      end.
      * right. rewrite bool_decide_eq_false_2 by done. split; [done|].
        right. eexists. split; [reflexivity|]. by rewrite Herr.
      * left. rewrite bool_decide_eq_true_2 by done. split; [done|].
        split; [done|]. eexists. split; [reflexivity|]. rewrite Herr.
        by intros [? ?].
    + right. eexists. by split.
Qed.

(** X10. A key given in the call wins over the configured one: if it is
    the placeholder the lookup is refused without a request even when a key is
    configured, and any other non-empty key is the one sent. An empty key in
    the call counts as none. *)
Theorem lookup_whois_key_choice (W : World) (query key : string) (s : state) :
  (key = "your_service_key_here" ->
   lookup_whois W query (Some key) s = (inr (refusal query), s))
  /\ (key ≠ "" -> key ≠ "your_service_key_here" ->
      exists o,
        lookup_whois W query (Some key) s
        = (inr o, after_lookup (request_for query key (is_ip_address W query)) s))
  /\ lookup_whois W query (Some "") s = lookup_whois W query None s.
Proof.
  split; [|split].
  - intros ->. by rewrite lookup_whois_unfold.
  - intros Hne Hph. rewrite lookup_whois_unfold. unfold or_key.
    rewrite (proj2 (String.eqb_neq key "") Hne). unfold unusable.
    rewrite (proj2 (String.eqb_neq key "") Hne).
    rewrite (proj2 (String.eqb_neq key "your_service_key_here") Hph).
    by eexists.
  - by rewrite !lookup_whois_unfold.
Qed.

Lemma lookup_whois_key_choice_witness :
  lookup_whois serving_world "example.kr" (Some "your_service_key_here") initial
  = (inr (refusal "example.kr"), initial)
  /\ exists o,
       lookup_whois sample_world "example.kr" (Some "call-key") initial
       = (inr o, after_lookup (request_for "example.kr" "call-key"
                                            (is_ip_address sample_world "example.kr"))
                              initial).
Proof.
  split.
  - apply (proj1 (lookup_whois_key_choice serving_world "example.kr"
                    "your_service_key_here" initial)).
    reflexivity.
  - apply (proj1 (proj2 (lookup_whois_key_choice sample_world "example.kr" "call-key"
                           initial))); discriminate.
Defined.

(** ** The legacy fetcher *)

Lemma legacy_parse_same (fromstring : string -> fromstring_result)
    (xml_content query : string) :
  Legacy.parse_whois_xml fromstring xml_content query
  = parse_domain_whois_xml fromstring xml_content query.
Proof.
  unfold Legacy.parse_whois_xml, parse_domain_whois_xml.
  destruct (fromstring xml_content) as [e|root]; [done|].
  by destruct (find root "./whois/krdomain").
Qed.

(** X11. The legacy [lookup_whois] is the IP-aware [lookup_whois] of a
    world in which nothing is an IP address: it always asks the domain
    endpoint and uses the domain parser. So for every query that is not an IP
    address the two variants return the same outcome and leave the same
    state. *)
Theorem legacy_lookup_agrees (W : World) (query : string) (service_key : option string)
    (s : state) :
  LegacyFetcher.lookup_whois W query service_key s
  = lookup_whois (without_ip W) query service_key s
  /\ (is_ip_address W query = false ->
      LegacyFetcher.lookup_whois W query service_key s
      = lookup_whois W query service_key s).
Proof.
  assert (LegacyFetcher.lookup_whois W query service_key s
          = lookup_whois (without_ip W) query service_key s) as Hlegacy.
  { unfold LegacyFetcher.lookup_whois, lookup_whois, try_except.
    change (SERVICE_KEY (without_ip W)) with (SERVICE_KEY W).
    destruct (_ || _); [done|].
    unfold bind, LegacyFetcher.query_whois_api, query_whois_api, try_except, bind,
      client_get.
    change (is_ip_address (without_ip W) query) with false. cbv iota.
    change (upstream (without_ip W)) with (upstream W).
    destruct (upstream W _ _) as [e|resp]; [done|]. cbv beta iota.
    destruct (status_code resp =? 200)%Z; [|done].
    by rewrite legacy_parse_same. }
  split; [done|]. intros Hip. rewrite Hlegacy.
  rewrite !lookup_whois_unfold.
  change (is_ip_address (without_ip W) query) with false. rewrite Hip.
  done.
Qed.

Lemma legacy_lookup_agrees_witness :
  LegacyFetcher.lookup_whois serving_world "example.kr" None initial
  = lookup_whois serving_world "example.kr" None initial.
Proof.
  apply (proj2 (legacy_lookup_agrees serving_world "example.kr" None initial)).
  reflexivity.
Defined.

(** ** The batch orchestrator, all batch sizes *)

(** X12. A batch size that is not positive makes [bulk_whois_lookup] do
    no lookup at all, for every item list and every delay: with 0 it returns
    the error result of the [ValueError] that [range] raises, and with a
    negative size it completes with [total_items] the length of the list and
    both counters at 0. In both cases the state is left as it was. *)
Theorem bulk_without_positive_batch_size (W : World) (items : list string)
    (batch_size : Z) (delay : delay_value) (s : state) :
  (batch_size <= 0)%Z ->
  bulk_whois_lookup W items batch_size delay s
  = (Returned (inr (if (batch_size =? 0)%Z
                    then BulkError "대량 분석 중 오류: range() arg 3 must not be zero"
                    else Completed (length items) 0 0 [])),
     s).
Proof.
  intros Hb. unfold bulk_whois_lookup, try_exceptT, range.
  destruct (Z.eqb_spec batch_size 0) as [-> | Hne]; [done|].
  unfold range_length.
  destruct (Z.ltb_spec 0 batch_size) as [? | _]; [lia|].
  destruct (Z.ltb_spec (Z.of_nat (length items)) 0) as [? | _]; [lia|].
  done.
Qed.

Lemma bulk_without_positive_batch_size_witness :
  bulk_whois_lookup serving_world ["example.kr"; "missing.kr"] (-5) (Finite 1 (-3))
                    initial
  = (Returned (inr (if (-5 =? 0)%Z
                    then BulkError "대량 분석 중 오류: range() arg 3 must not be zero"
                    else Completed (length ["example.kr"; "missing.kr"]) 0 0 [])),
     initial).
Proof.
  apply (bulk_without_positive_batch_size serving_world ["example.kr"; "missing.kr"]
           (-5) (Finite 1 (-3)) initial).
  lia.
Defined.



(** ** The batch orchestrator, cut short *)

Lemma first_batch (items : list string) (batch_size : Z) :
  (1 <= batch_size)%Z ->
  items ≠ [] ->
  exists m,
    batch_count (length items) batch_size = S m
    /\ (1 <= Z.of_nat (length (slice items 0 (0 + batch_size))) <= batch_size)%Z.
Proof.
  intros Hb Hne.
  pose proof (batch_count_covers (length items) batch_size Hb) as Hcover.
  assert (1 <= length items) as Hlen by (destruct items; [done|simpl; lia]).
  destruct (batch_count (length items) batch_size) as [|m]; [simpl in Hcover; lia|].
  exists m. split; [done|].
  change 0%Z with (Z.of_nat 0 * batch_size)%Z.
  rewrite slice_batch by done. rewrite length_take, length_drop. lia.
Qed.

(** X23. With a batch size of at least 1 and a list that is not empty, a
    sleep that does not wake cuts [bulk_whois_lookup] short after its first
    batch: on an infinite delay the call never returns, and when the sleep
    raises, as it does on not-a-number from Python 3.13 on, the call returns
    the error result with the message of the exception. Only the first batch
    was handed to [process_batch], and nothing was printed or written. *)
Theorem bulk_cut_short_by_sleep (W : World) (items : list string) (batch_size : Z)
    (delay : delay_value) (s : state) :
  (1 <= batch_size)%Z ->
  items ≠ [] ->
  sleep_ends W delay ≠ Wakes ->
  exists s',
    bulk_whois_lookup W items batch_size delay s
    = (match sleep_ends W delay with
       | WakeRaises e =>
           Returned (inr (BulkError ("대량 분석 중 오류: " +:+ exn_str e)))
       | _ => Pending
       end, s')
    /\ dispatched s' = dispatched s ++ [slice items 0 (0 + batch_size)]
    /\ sleeps s' = sleeps s /\ printed s' = printed s /\ files s' = files s.
Proof.
  intros Hb Hne Hsleep.
  destruct (bulk_whois_lookup_run W items batch_size delay s Hb)
    as (starts & _ & Hstarts & _ & _ & ->).
  destruct (first_batch items batch_size Hb Hne) as (m & Hcount & Hfirst).
  rewrite Hcount in Hstarts. cbn [seq fmap list_fmap] in Hstarts. subst starts.
  cbn [foldT]. unfold bindT at 1. rewrite batch_then_sleep_run.
  change (Z.of_nat 0 * batch_size)%Z with 0%Z.
  destruct (do_batch_run W items batch_size (Z.of_nat (length items)) (Tally [] [] 0)
              0 s)
    as (os & s1 & s2 & _ & Hlen & _ & Hsl & Hpr & Hfi & Hdi & ->).
  cbv zeta. cbn [processed]. rewrite processed_foldl_classify. cbn [processed].
  rewrite Hlen.
  destruct (Z.eqb_spec
              ((0 + Z.of_nat (length (slice items 0 (0 + batch_size))))
               mod (batch_size * 10)) 0) as [Hz | _].
  { rewrite Z.mod_small in Hz by lia. lia. }
  exists s2. destruct (sleep_ends W delay); done.
Qed.

Lemma bulk_cut_short_by_sleep_witness :
  (exists s',
      bulk_whois_lookup serving_world ten_items 2 (Infinity false) initial
      = (Pending, s')
      /\ dispatched s' = dispatched initial ++ [slice ten_items 0 (0 + 2)]
      /\ sleeps s' = sleeps initial /\ printed s' = printed initial
      /\ files s' = files initial)
  /\ (exists s',
         bulk_whois_lookup serving_world ten_items 2 NaN initial
         = (Returned (inr (BulkError
                             "대량 분석 중 오류: Invalid delay: NaN (not a number)")),
            s')
         /\ dispatched s' = dispatched initial ++ [slice ten_items 0 (0 + 2)]
         /\ sleeps s' = sleeps initial /\ printed s' = printed initial
         /\ files s' = files initial).
Proof.
  split.
  - apply (bulk_cut_short_by_sleep serving_world ten_items 2 (Infinity false) initial);
      [lia | discriminate | discriminate].
  - apply (bulk_cut_short_by_sleep serving_world ten_items 2 NaN initial);
      [lia | discriminate | discriminate].
Defined.

(** ** The CSV exporter, beyond failed outcomes *)

(** X14. For a non-empty result list without failed outcomes and a file
    that opens, takes every write and closes without an exception, the CSV
    export succeeds and reports the number of results. The file then holds
    the header and one row per result, in the order of the results; every row
    has as many cells as the header, and the cell of a column is the value
    that the result's own row dictionary has for the column name, or the
    empty string when it has none. No request is sent and the clock is not
    read. *)
Theorem csv_export_rows (W : World) (res : list outcome) (output_file : string)
    (s : state) :
  res ≠ [] ->
  open_w W output_file = None ->
  writes_through W output_file ->
  Forall (fun result => ¬ failed_outcome result) res ->
  exists message content s',
    save_results_to_csv W res output_file s
    = (inr (Saved output_file (length res) message), s')
    /\ files s' !! output_file = Some content
    /\ content
       = (VStr <$> csv_headers res) :: (cells (csv_headers res) ∘ make_row <$> res)
    /\ length content = S (length res)
    /\ Forall (fun row => length row = length (csv_headers res)) content
    /\ (forall i result j k,
          res !! i = Some result ->
          csv_headers res !! j = Some k ->
          content !! S i ≫= (.!! j)
          = Some (default (VStr "") (make_row result !! k)))
    /\ same_net s' s.
Proof.
  intros Hne Hopen Hthrough Hall.
  rewrite (save_results_to_csv_all_accepted W res output_file s Hne Hopen Hthrough
             Hall).
  eexists _, ((VStr <$> csv_headers res)
              :: (cells (csv_headers res) ∘ make_row <$> res)), _.
  split; [reflexivity|].
  split; [unfold written; cbn [files]; by rewrite lookup_insert_eq|].
  split; [reflexivity|]. split; [cbn [length]; by rewrite length_fmap|]. split.
  - apply Forall_cons. split; [by rewrite length_fmap|].
    apply Forall_fmap, Forall_forall. intros r _. unfold cells.
    cbn [compose]. by rewrite length_fmap.
  - split; [|done]. intros i result j k Hi Hj.
    change (((VStr <$> csv_headers res)
             :: (cells (csv_headers res) ∘ make_row <$> res)) !! S i)
      with ((cells (csv_headers res) ∘ make_row <$> res) !! i).
    rewrite list_lookup_fmap, Hi. cbn [fmap option_fmap option_map mbind option_bind compose].
    unfold cells. by rewrite list_lookup_fmap, Hj.
Qed.

Lemma csv_export_rows_witness :
  exists message content s',
    save_results_to_csv sample_world [success_outcome; ip_success_outcome] "out.csv"
                        initial
    = (inr (Saved "out.csv" (length [success_outcome; ip_success_outcome]) message),
       s')
    /\ files s' !! "out.csv" = Some content
    /\ content
       = (VStr <$> csv_headers [success_outcome; ip_success_outcome])
         :: (cells (csv_headers [success_outcome; ip_success_outcome]) ∘ make_row
               <$> [success_outcome; ip_success_outcome])
    /\ length content = S (length [success_outcome; ip_success_outcome])
    /\ Forall (fun row =>
                 length row = length (csv_headers [success_outcome; ip_success_outcome]))
              content
    /\ (forall i result j k,
          [success_outcome; ip_success_outcome] !! i = Some result ->
          csv_headers [success_outcome; ip_success_outcome] !! j = Some k ->
          content !! S i ≫= (.!! j)
          = Some (default (VStr "") (make_row result !! k)))
    /\ same_net s' initial.
Proof.
  apply (csv_export_rows sample_world [success_outcome; ip_success_outcome] "out.csv"
           initial);
    [discriminate | reflexivity | split; intros; reflexivity |].
  repeat constructor; unfold failed_outcome; simpl; discriminate.
Defined.

(** X15. The columns of the export are [query], [status], [query_time]
    and then the field names of the success records, in ascending order and
    each once; a name is among them exactly when some result with status
    [success] and a [data] record has it as a field. *)
Theorem csv_columns (res : list outcome) :
  exists keys,
    csv_headers res = ["query"; "status"; "query_time"] ++ keys
    /\ StronglySorted String.le keys
    /\ NoDup keys
    /\ (forall k,
          k ∈ keys
          <-> exists result d,
                result ∈ res
                /\ default VNone (o_status result) = VStr "success"
                /\ o_data result = Some d
                /\ k ∈ dom d).
Proof.
  exists (sorted (elements (collect_headers res))). unfold sorted.
  split; [done|]. split; [apply StronglySorted_merge_sort; apply _|]. split.
  - rewrite merge_sort_Permutation. apply NoDup_elements.
  - intros k. rewrite merge_sort_Permutation, elem_of_elements, elem_of_collect_headers.
    split.
    + intros (result & Hin & Hs & Hk). unfold is_success in Hs.
      apply andb_true_iff in Hs as [Hstatus Hdata].
      apply bool_decide_eq_true in Hstatus. apply bool_decide_eq_true in Hdata.
      destruct Hdata as [d Hd]. exists result, d. rewrite Hd in Hk. done.
    + intros (result & d & Hin & Hstatus & Hd & Hk). exists result.
      split; [done|]. unfold is_success. rewrite Hd.
      rewrite !bool_decide_eq_true_2; by eauto.
Qed.

(** X16. The two ways the export gives up before writing: an empty
    result list gives the no-data error and the file is not opened; a file
    that cannot be opened gives the error result with the exception's message.
    In both cases nothing is raised and the state is left as it was. *)
Theorem save_results_to_csv_gives_up (W : World) (output_file : string) (s : state) :
  save_results_to_csv W [] output_file s
  = (inr (SaveError "저장할 데이터가 없습니다."), s)
  /\ (forall res e,
        res ≠ [] ->
        open_w W output_file = Some e ->
        save_results_to_csv W res output_file s
        = (inr (SaveError ("CSV 저장 중 오류: " +:+ exn_str e)), s)).
Proof.
  split; [done|]. intros res e Hne Hopen.
  unfold save_results_to_csv, try_except. destruct res as [|r0 res0]; [done|].
  by rewrite (bind_raised _ _ _ _ _ (with_open_refused W output_file _ s e Hopen)).
Qed.

Lemma save_results_to_csv_gives_up_witness :
  save_results_to_csv sample_world [] "out.csv" initial
  = (inr (SaveError "저장할 데이터가 없습니다."), initial).
Proof.
  exact (proj1 (save_results_to_csv_gives_up sample_world "out.csv" initial)).
Defined.

(** X17. In the row of a success the fields of its record come first: a
    column holds the record's value for its name when the record has that
    field, also for the columns [query], [status] and [query_time]; it holds
    the result's own value for these three otherwise, and the empty string
    for any other name the record lacks. *)
Theorem csv_row_of_success (res : list outcome) (result : outcome) (d : record)
    (j : nat) (k : string) :
  default VNone (o_status result) = VStr "success" ->
  o_data result = Some d ->
  csv_headers res !! j = Some k ->
  cells (csv_headers res) (make_row result) !! j
  = Some (match d !! k with
          | Some v => v
          | None =>
              if decide (k = "query") then default VNone (o_query result)
              else if decide (k = "status") then default VNone (o_status result)
              else if decide (k = "query_time") then default VNone (o_query_time result)
              else VStr ""
          end).
Proof.
  intros Hstatus Hd Hk. unfold cells. rewrite list_lookup_fmap, Hk. simpl. f_equal.
  unfold make_row, is_success. rewrite Hd, Hstatus.
  rewrite !bool_decide_eq_true_2 by eauto. simpl.
  rewrite lookup_union. destruct (d !! k) as [v|] eqn:Hv.
  - by rewrite union_Some_l.
  - rewrite (left_id None _).
    repeat case_decide; subst; by simplify_map_eq.
Qed.

Lemma csv_row_of_success_witness :
  cells (csv_headers [success_outcome]) (make_row success_outcome) !! 0
  = Some (match parse_domain_whois_xml sample_fromstring domain_xml "example.kr"
                !! "query" with
          | Some v => v
          | None =>
              if decide ("query" = "query")
              then default VNone (o_query success_outcome)
              else if decide ("query" = "status")
                   then default VNone (o_status success_outcome)
                   else if decide ("query" = "query_time")
                        then default VNone (o_query_time success_outcome)
                        else VStr ""
          end).
Proof.
  apply (csv_row_of_success [success_outcome] success_outcome
           (parse_domain_whois_xml sample_fromstring domain_xml "example.kr") 0 "query");
    reflexivity.
Defined.

(** ** Loading the item list *)

Lemma load_loop_kept (D : Disk) (max_items i : Z) (lines items : list string) :
  load_loop D max_items i lines items
  = items ++ kept_items D (max_items - i) lines.
Proof.
  unfold kept_items. revert i items.
  induction lines as [|line lines IH]; intros i items; simpl.
  - by rewrite take_nil, app_nil_r.
  - destruct (Z.leb_spec max_items i) as [Hle | Hlt].
    + replace (Z.to_nat (max_items - i)) with 0 by lia. by rewrite app_nil_r.
    + rewrite IH.
      replace (Z.to_nat (max_items - i)) with (S (Z.to_nat (max_items - (i + 1))))
        by lia.
      simpl. destruct (keeps (strip D line)) eqn:Hkeep.
      * rewrite filter_cons_True by done. by rewrite <- app_assoc.
      * rewrite filter_cons_False; [done|]. by rewrite Hkeep.
Qed.

Lemma slice_from_start {A} (l : list A) (n : nat) :
  slice l 0 (Z.of_nat n) = take n l.
Proof.
  unfold slice, clamp. change (0 <? 0)%Z with false. cbv iota.
  destruct (Z.ltb_spec (Z.of_nat n) 0) as [? | _]; [lia|].
  rewrite (Z.min_l 0) by lia. change (Z.to_nat 0) with 0. rewrite drop_0.
  destruct (decide (n <= length l)) as [Hle | Hgt].
  - rewrite Z.min_l by lia. f_equal. lia.
  - rewrite Z.min_r by lia. rewrite !take_ge by lia. done.
Qed.


(** X19. What a caller can rely on after a load, whatever [strip] does:
    the count is at most the number of lines of the file and at most
    [max_items] (so 0 when [max_items] is not positive); the preview has at
    most ten items and at most the count; and every item of the preview is a
    stripped line of the file, is not empty and does not start with [#]. *)
Theorem load_list_from_file_bounds (D : Disk) (file_path : string) (max_items : Z)
    (lines : list string) :
  path_exists D file_path = true ->
  read_lines D file_path = inr lines ->
  exists count preview message,
    load_list_from_file D file_path max_items
    = Loaded count file_path preview message
    /\ count <= length lines
    /\ (Z.of_nat count <= Z.max 0 max_items)%Z
    /\ length preview <= 10
    /\ length preview <= count
    /\ (forall item,
          item ∈ preview ->
          item ≠ "" /\ String.prefix "#" item = false
          /\ exists line, line ∈ lines /\ item = strip D line).
Proof.
  intros Hexists Hread. unfold load_list_from_file. rewrite Hexists, Hread. simpl.
  rewrite load_loop_kept. simpl. rewrite Z.sub_0_r.
  rewrite (slice_from_start _ 10).
  eexists _, _, _. split; [reflexivity|].
  assert (length (kept_items D max_items lines)
          <= length (take (Z.to_nat max_items) lines)) as Hkept.
  { unfold kept_items. etrans; [apply length_filter|]. by rewrite length_fmap. }
  rewrite length_take in Hkept.
  split; [lia|]. split; [lia|]. rewrite length_take. split; [lia|]. split; [lia|].
  intros item Hitem. apply elem_of_take in Hitem as (n & Hitem & _).
  apply list_elem_of_lookup_2 in Hitem. unfold kept_items in Hitem.
  apply list_elem_of_filter in Hitem as [Hkeep Hitem].
  apply list_elem_of_fmap in Hitem as (line & -> & Hline).
  unfold keeps in Hkeep. apply andb_true_iff in Hkeep as [Hne Hhash].
  apply negb_true_iff in Hne, Hhash. apply String.eqb_neq in Hne.
  split; [done|]. split; [done|]. exists line. split; [|done].
  apply list_elem_of_lookup in Hline as [n' Hn'].
  apply lookup_take_Some in Hn' as [Hn' _]. by apply list_elem_of_lookup_2 in Hn'.
Qed.

Lemma load_list_from_file_bounds_witness :
  exists count preview message,
    load_list_from_file sample_disk "items.txt" 5
    = Loaded count "items.txt" preview message
    /\ count <= 6
    /\ (Z.of_nat count <= Z.max 0 5)%Z
    /\ length preview <= 10
    /\ length preview <= count
    /\ (forall item,
          item ∈ preview ->
          item ≠ "" /\ String.prefix "#" item = false
          /\ exists line,
               line ∈ ["# targets" +:+ nl; "example.kr" +:+ nl; nl; "8.8.8.8" +:+ nl;
                       "#skip.kr" +:+ nl; "missing.kr"]
               /\ item = strip sample_disk line).
Proof.
  apply (load_list_from_file_bounds sample_disk "items.txt" 5
           ["# targets" +:+ nl; "example.kr" +:+ nl; nl; "8.8.8.8" +:+ nl;
            "#skip.kr" +:+ nl; "missing.kr"]); reflexivity.
Defined.

(** ** The text exporter *)

Lemma now_read (W : World) (path : string) (content : rows) (s : state) :
  now_isoformat W (written path content s)
  = (inr (isoformat_now W (clock_reads s)), written_at path content s).
Proof. done. Qed.

Lemma write_written (W : World) (path text : string) (content : rows) (s : state) :
  write_error W path content [VStr text] = None ->
  write W path text (written path content s)
  = (inr tt, written path (content ++ as_rows [text]) s).
Proof. intros Hw. unfold write. by apply append_row_written. Qed.

Lemma write_written_at (W : World) (path text : string) (content : rows)
    (s : state) :
  write_error W path content [VStr text] = None ->
  write W path text (written_at path content s)
  = (inr tt, written_at path (content ++ as_rows [text]) s).
Proof.
  intros Hw. unfold write, append_row, written_at. simpl.
  rewrite lookup_insert_eq. simpl. rewrite Hw. by rewrite insert_insert_eq.
Qed.

Lemma as_rows_app (l1 l2 : list string) : as_rows (l1 ++ l2) = as_rows l1 ++ as_rows l2.
Proof. unfold as_rows. apply fmap_app. Qed.

(** The loop over the items of a record writes its non-empty fields. *)
Lemma write_items (W : World) (str_list : list (option string) -> string)
    (path : string) (data : list (string * value)) (content : rows) (s : state) :
  (forall content cs, write_error W path content cs = None) ->
  foldM (fun _ kv =>
           if truthy (snd kv)
           then write W path (fst kv +:+ ": " +:+ str str_list (snd kv) +:+ nl)
           else ret tt)
        tt data (written_at path content s)
  = (inr tt,
     written_at path
       (content
        ++ as_rows ((fun kv => fst kv +:+ ": " +:+ str str_list (snd kv) +:+ nl)
                      <$> filter (fun kv => truthy (snd kv) = true) data)) s).
Proof.
  intros Hw. revert content. induction data as [|kv data IH]; intros content.
  - simpl. by rewrite app_nil_r.
  - cbn [foldM]. destruct (truthy (snd kv)) eqn:Htruthy.
    + rewrite (bind_returned _ _ _ _ _ (write_written_at W _ _ _ _ (Hw _ _))).
      rewrite IH, filter_cons_True by done.
      by rewrite fmap_cons, <- app_assoc.
    + rewrite (bind_returned _ _ (written_at path content s) _ tt eq_refl).
      rewrite IH, filter_cons_False; [done|]. by rewrite Htruthy.
Qed.

Lemma write_result_written (W : World) (str_list : list (option string) -> string)
    (path format_type : string) (result : listed_outcome) (content : rows)
    (s : state) :
  (forall content cs, write_error W path content cs = None) ->
  write_result W str_list path format_type result (written_at path content s)
  = (inr tt,
     written_at path (content ++ as_rows (result_text str_list format_type result)) s).
Proof.
  intros Hw.
  unfold write_result, result_text. destruct (String.eqb format_type "simple").
  - by apply write_written_at.
  - rewrite (bind_returned _ _ _ _ _ (write_written_at W _ _ _ _ (Hw _ _))).
    rewrite (bind_returned _ _ _ _ _ (write_written_at W _ _ _ _ (Hw _ _))).
    destruct (bool_decide _ && bool_decide _).
    + rewrite (bind_returned _ _ _ _ _ (write_items W _ _ _ _ _ Hw)).
      rewrite write_written_at by done. rewrite !as_rows_app, <- !app_assoc. done.
    + destruct (bool_decide _).
      * rewrite (bind_returned _ _ _ _ _ (write_written_at W _ _ _ _ (Hw _ _))).
        rewrite write_written_at by done. rewrite !as_rows_app, <- !app_assoc. done.
      * rewrite (bind_returned _ _ _ _ tt eq_refl).
        rewrite write_written_at by done. rewrite !as_rows_app, <- !app_assoc. done.
Qed.

Lemma write_results_written (W : World) (str_list : list (option string) -> string)
    (path format_type : string) (res : list listed_outcome) (content : rows)
    (s : state) :
  (forall content cs, write_error W path content cs = None) ->
  foldM (fun _ result => write_result W str_list path format_type result) tt res
        (written_at path content s)
  = (inr tt,
     written_at path
       (content ++ as_rows (res ≫= result_text str_list format_type)) s).
Proof.
  intros Hw. revert content. induction res as [|result res IH]; intros content.
  - simpl. by rewrite app_nil_r.
  - cbn [foldM].
    rewrite (bind_returned _ _ _ _ _ (write_result_written W _ _ _ _ _ _ Hw)).
    rewrite IH. rewrite bind_cons, as_rows_app, <- app_assoc. done.
Qed.

(** The run of the text export on a non-empty list and a file that
    opens, takes every write and closes. *)
Lemma save_results_to_txt_run (W : World)
    (str_list : list (option string) -> string) (res : list listed_outcome)
    (output_file format_type : string) (s : state) :
  res ≠ [] ->
  open_w W output_file = None ->
  writes_through W output_file ->
  save_results_to_txt W str_list res output_file format_type s
  = (inr (TxtSaved output_file (length res) format_type
                   (pretty (length res) +:+ "개 결과를 " +:+ output_file
                    +:+ "에 저장했습니다.")),
     written_at output_file
       (as_rows (txt_heading (isoformat_now W (clock_reads s)) (length res)
                 ++ (res ≫= result_text str_list format_type))) s).
Proof.
  intros Hne Hopen [Hw Hc]. unfold save_results_to_txt, try_except.
  destruct res as [|r0 res0] eqn:Hres; [done|]. rewrite <- Hres in *.
  erewrite bind_returned; [reflexivity|].
  eapply with_open_run; [done| |by apply lookup_insert_eq|by apply Hc].
  rewrite (bind_returned _ _ _ _ _ (write_written W _ _ _ _ (Hw _ _))).
  rewrite (bind_returned _ _ _ _ _ (now_read _ _ _ _)).
  rewrite (bind_returned _ _ _ _ _ (write_written_at W _ _ _ _ (Hw _ _))).
  rewrite (bind_returned _ _ _ _ _ (write_written_at W _ _ _ _ (Hw _ _))).
  rewrite (write_results_written W _ _ _ _ _ _ Hw).
  unfold txt_heading. rewrite !as_rows_app. simpl. done.
Qed.

(** X20. For every non-empty result list, failed outcomes included, and
    a file that opens, takes every write and closes without an exception, the
    text export succeeds and reports the number of results. It reads the
    clock once, and the file holds the three heading
    strings and then the strings of each result in turn: in the simple format
    one line with query, tab and status; in any other format the query line,
    the status line, either one line per non-empty field of a success in the
    order of its record or the error line of a failure, and an empty line. *)
Theorem save_results_to_txt_written (W : World)
    (str_list : list (option string) -> string) (res : list listed_outcome)
    (output_file format_type : string) (s : state) :
  res ≠ [] ->
  open_w W output_file = None ->
  writes_through W output_file ->
  save_results_to_txt W str_list res output_file format_type s
  = (inr (TxtSaved output_file (length res) format_type
                   (pretty (length res) +:+ "개 결과를 " +:+ output_file
                    +:+ "에 저장했습니다.")),
     written_at output_file
       (as_rows (txt_heading (isoformat_now W (clock_reads s)) (length res)
                 ++ (res ≫= result_text str_list format_type))) s).
Proof.
  intros Hne Hopen Hthrough. by apply save_results_to_txt_run.
Qed.

Lemma save_results_to_txt_written_witness :
  save_results_to_txt sample_world sample_str_list [listed_success; listed_failure]
                      "out.txt" "detailed" initial
  = (inr (TxtSaved "out.txt" (length [listed_success; listed_failure]) "detailed"
                   (pretty (length [listed_success; listed_failure]) +:+ "개 결과를 "
                    +:+ "out.txt" +:+ "에 저장했습니다.")),
     written_at "out.txt"
       (as_rows (txt_heading (isoformat_now sample_world (clock_reads initial))
                             (length [listed_success; listed_failure])
                 ++ ([listed_success; listed_failure]
                       ≫= result_text sample_str_list "detailed"))) initial).
Proof.
  apply (save_results_to_txt_written sample_world sample_str_list
           [listed_success; listed_failure] "out.txt" "detailed" initial);
    [discriminate | reflexivity | split; intros; reflexivity].
Defined.

(** X21. The two ways the text export gives up before writing: an empty
    result list gives the no-data error and the file is not opened; a file
    that cannot be opened gives the error result with the exception's
    message. Nothing is raised, the clock is not read, and the state is left
    as it was. *)
Theorem save_results_to_txt_gives_up (W : World)
    (str_list : list (option string) -> string) (output_file format_type : string)
    (s : state) :
  save_results_to_txt W str_list [] output_file format_type s
  = (inr (TxtError "저장할 데이터가 없습니다."), s)
  /\ (forall res e,
        res ≠ [] ->
        open_w W output_file = Some e ->
        save_results_to_txt W str_list res output_file format_type s
        = (inr (TxtError ("TXT 저장 중 오류: " +:+ exn_str e)), s)).
Proof.
  split; [done|]. intros res e Hne Hopen.
  unfold save_results_to_txt, try_except. destruct res as [|r0 res0]; [done|].
  by rewrite (bind_raised _ _ _ _ _ (with_open_refused W output_file _ s e Hopen)).
Qed.

Lemma save_results_to_txt_gives_up_witness :
  save_results_to_txt sample_world sample_str_list [] "out.txt" "simple" initial
  = (inr (TxtError "저장할 데이터가 없습니다."), initial).
Proof.
  exact (proj1 (save_results_to_txt_gives_up sample_world sample_str_list "out.txt"
                  "simple" initial)).
Defined.

(** X22. The two exporters disagree on failed outcomes. For a result
    list with a failed outcome, no success record with an [error] field, and
    files that open, take every write and close without an exception, the CSV
    export returns the error result of the refused row while the text export
    of the same results, in either format and whatever the order of the
    record items, succeeds and reports every result as saved. *)
Theorem exporters_disagree_on_failures (W : World)
    (str_list : list (option string) -> string)
    (items_of : record -> list (string * value)) (res : list outcome)
    (csv_file txt_file format_type : string) (s : state) :
  open_w W csv_file = None ->
  open_w W txt_file = None ->
  writes_through W csv_file ->
  writes_through W txt_file ->
  Exists failed_outcome res ->
  "error" ∉ collect_headers res ->
  fst (save_results_to_csv W res csv_file s)
  = inr (SaveError "CSV 저장 중 오류: dict contains fields not in fieldnames: 'error'")
  /\ exists message,
       fst (save_results_to_txt W str_list (as_listed items_of <$> res) txt_file
                                format_type s)
       = inr (TxtSaved txt_file (length res) format_type message).
Proof.
  intros Hcsv Htxt Hcsvw Htxtw Hex Hnocol. split.
  - destruct (save_results_to_csv_refuses_failures W res csv_file s Hcsv Hcsvw Hex
                Hnocol) as [content ->]. done.
  - eexists.
    rewrite save_results_to_txt_run;
      [|by destruct res; [apply Exists_nil in Hex|]|done|done].
    simpl. by rewrite length_fmap.
Qed.

Lemma exporters_disagree_on_failures_witness :
  fst (save_results_to_csv sample_world [success_outcome; failure_outcome] "out.csv"
                           initial)
  = inr (SaveError "CSV 저장 중 오류: dict contains fields not in fieldnames: 'error'")
  /\ exists message,
       fst (save_results_to_txt sample_world sample_str_list
              (as_listed map_to_list <$> [success_outcome; failure_outcome])
              "out.txt" "simple" initial)
       = inr (TxtSaved "out.txt" (length [success_outcome; failure_outcome]) "simple"
                       message).
Proof.
  apply (exporters_disagree_on_failures sample_world sample_str_list map_to_list
           [success_outcome; failure_outcome] "out.csv" "out.txt" "simple" initial);
    [reflexivity | reflexivity | split; intros; reflexivity
     | split; intros; reflexivity | |].
  - apply Exists_cons_tl, Exists_cons_hd. reflexivity.
  - rewrite elem_of_collect_headers. intros (r & Hr & Hs & Hk).
    apply elem_of_cons in Hr as [-> | Hr].
    + change ("error" ∈ dom (parse_domain_whois_xml sample_fromstring domain_xml
                                 "example.kr")) in Hk.
      destruct (domain_found sample_fromstring domain_xml "example.kr" domain_doc
                  domain_krdomain eq_refl eq_refl) as [Hok _].
      apply elem_of_dom in Hk as [v Hv]. rewrite Hok in Hv. discriminate.
    + apply list_elem_of_singleton in Hr as ->. discriminate.
Defined.

(** ** The exporters on a file that fails after it was opened *)

(** X24. A file that opens can still make the CSV export fail. When the
    write of the header raises, the export returns the error result with the
    message of that exception and no row is written. When every write goes
    through and the closing of the file raises, as on a full device, the
    export returns the error result with the message of the closing although
    the header and every row were handed to the file. Nothing is raised. *)
Theorem save_results_to_csv_file_errors (W : World) (res : list outcome)
    (output_file : string) (s : state) (e : exn) :
  res ≠ [] ->
  open_w W output_file = None ->
  (write_error W output_file [] (VStr <$> csv_headers res) = Some e ->
   close_error W output_file [] = None ->
   save_results_to_csv W res output_file s
   = (inr (SaveError ("CSV 저장 중 오류: " +:+ exn_str e)), written output_file [] s))
  /\ ((forall content cs, write_error W output_file content cs = None) ->
      Forall (fun result => ¬ failed_outcome result) res ->
      close_error W output_file
                  ((VStr <$> csv_headers res)
                   :: (cells (csv_headers res) ∘ make_row <$> res)) = Some e ->
      save_results_to_csv W res output_file s
      = (inr (SaveError ("CSV 저장 중 오류: " +:+ exn_str e)),
         written output_file
                 ((VStr <$> csv_headers res)
                  :: (cells (csv_headers res) ∘ make_row <$> res)) s)).
Proof.
  intros Hne Hopen. split.
  - intros Hw Hc. unfold save_results_to_csv, try_except.
    destruct res as [|r0 res0] eqn:Hres; [done|]. rewrite <- Hres in *.
    rewrite (bind_raised _ _ s (written output_file [] s) e); [done|].
    eapply with_open_run; [done| |by apply lookup_insert_eq|done].
    apply bind_raised. unfold writeheader, writerow. rewrite header_row.
    by apply append_row_raised.
  - intros Hw Hall Hc. unfold save_results_to_csv, try_except.
    destruct res as [|r0 res0] eqn:Hres; [done|]. rewrite <- Hres in *.
    rewrite (bind_raised _ _ s
               (written output_file
                        ((VStr <$> csv_headers res)
                         :: (cells (csv_headers res) ∘ make_row <$> res)) s) e);
      [done|].
    eapply with_open_close_raised; [done| |by apply lookup_insert_eq|done].
    rewrite (bind_returned _ _ _ _ _ (writeheader_written W _ _ _ _ (Hw _ _))).
    rewrite rows_written; [done|done|].
    apply Forall_forall. intros r Hr. apply other_row_accepted; [done|].
    by apply (proj1 (Forall_forall _ _) Hall).
Qed.

Lemma save_results_to_csv_file_errors_witness :
  save_results_to_csv full_device_world [success_outcome; ip_success_outcome]
                      "/dev/full" initial
  = (inr (SaveError "CSV 저장 중 오류: [Errno 28] No space left on device"),
     written "/dev/full"
             ((VStr <$> csv_headers [success_outcome; ip_success_outcome])
              :: (cells (csv_headers [success_outcome; ip_success_outcome]) ∘ make_row
                    <$> [success_outcome; ip_success_outcome])) initial).
Proof.
  apply (proj2 (save_results_to_csv_file_errors full_device_world
                  [success_outcome; ip_success_outcome] "/dev/full" initial
                  (Exn "OSError" "[Errno 28] No space left on device" "")
                  ltac:(discriminate) eq_refl));
    [intros; reflexivity | | reflexivity].
  repeat constructor; unfold failed_outcome; simpl; discriminate.
Defined.

(** X25. A file that opens can still make the text export fail. When the
    first write raises, the export returns the error result with the message
    of that exception, the clock is not read and nothing is written. When
    every write goes through and the closing of the file raises, the export
    returns the error result with the message of the closing although every
    string was handed to the file. Nothing is raised. *)
Theorem save_results_to_txt_file_errors (W : World)
    (str_list : list (option string) -> string) (res : list listed_outcome)
    (output_file format_type : string) (s : state) (e : exn) :
  res ≠ [] ->
  open_w W output_file = None ->
  (write_error W output_file [] [VStr ("# Whois 분석 결과" +:+ nl)] = Some e ->
   close_error W output_file [] = None ->
   save_results_to_txt W str_list res output_file format_type s
   = (inr (TxtError ("TXT 저장 중 오류: " +:+ exn_str e)), written output_file [] s))
  /\ ((forall content cs, write_error W output_file content cs = None) ->
      close_error W output_file
                  (as_rows (txt_heading (isoformat_now W (clock_reads s)) (length res)
                            ++ (res ≫= result_text str_list format_type))) = Some e ->
      save_results_to_txt W str_list res output_file format_type s
      = (inr (TxtError ("TXT 저장 중 오류: " +:+ exn_str e)),
         written_at output_file
           (as_rows (txt_heading (isoformat_now W (clock_reads s)) (length res)
                     ++ (res ≫= result_text str_list format_type))) s)).
Proof.
  intros Hne Hopen. split.
  - intros Hw Hc. unfold save_results_to_txt, try_except.
    destruct res as [|r0 res0] eqn:Hres; [done|]. rewrite <- Hres in *.
    rewrite (bind_raised _ _ s (written output_file [] s) e); [done|].
    eapply with_open_run; [done| |by apply lookup_insert_eq|done].
    apply bind_raised. unfold write. by apply append_row_raised.
  - intros Hw Hc. unfold save_results_to_txt, try_except.
    destruct res as [|r0 res0] eqn:Hres; [done|]. rewrite <- Hres in *.
    rewrite (bind_raised _ _ s
               (written_at output_file
                  (as_rows (txt_heading (isoformat_now W (clock_reads s)) (length res)
                            ++ (res ≫= result_text str_list format_type))) s) e);
      [done|].
    eapply with_open_close_raised; [done| |by apply lookup_insert_eq|done].
    rewrite (bind_returned _ _ _ _ _ (write_written W _ _ _ _ (Hw _ _))).
    rewrite (bind_returned _ _ _ _ _ (now_read _ _ _ _)).
    rewrite (bind_returned _ _ _ _ _ (write_written_at W _ _ _ _ (Hw _ _))).
    rewrite (bind_returned _ _ _ _ _ (write_written_at W _ _ _ _ (Hw _ _))).
    rewrite (write_results_written W _ _ _ _ _ _ Hw).
    unfold txt_heading. rewrite !as_rows_app. simpl. done.
Qed.

Lemma save_results_to_txt_file_errors_witness :
  save_results_to_txt full_device_world sample_str_list
                      [listed_success; listed_failure] "/dev/full" "simple" initial
  = (inr (TxtError "TXT 저장 중 오류: [Errno 28] No space left on device"),
     written_at "/dev/full"
       (as_rows (txt_heading (isoformat_now full_device_world (clock_reads initial))
                             (length [listed_success; listed_failure])
                 ++ ([listed_success; listed_failure]
                       ≫= result_text sample_str_list "simple"))) initial).
Proof.
  apply (proj2 (save_results_to_txt_file_errors full_device_world sample_str_list
                  [listed_success; listed_failure] "/dev/full" "simple" initial
                  (Exn "OSError" "[Errno 28] No space left on device" "")
                  ltac:(discriminate) eq_refl));
    [intros; reflexivity | reflexivity].
Defined.
